(** * dev-event: the pre-save validation pipeline of Event and Booking

    A shallow embedding of [database/event.model.ts] and
    [database/booking.model.ts]: the slug generator, the time and date
    normalizers, the two Mongoose pre-save hooks and the e-mail check,
    followed by the properties the specification states about them.

    JavaScript strings are sequences of UTF-16 code units; a code unit is
    a number below 65536, modelled as [N].  The regular expressions of the
    source are kept as data and run by a small backtracking matcher that
    follows the ECMAScript matching order. *)

From Stdlib Require Import ZArith NArith List Ascii String Bool Lia.
From stdpp Require Import gmap strings list.

Import ListNotations.
Local Open Scope N_scope.

(** ** Strings of code units *)

Definition jsstring := list N.

Definition cu (a : ascii) : N := N_of_ascii a.

(** A string literal of the source, as code units. *)
Definition js (s : string) : jsstring :=
  List.map N_of_ascii (list_ascii_of_string s).

Definition inRange (lo hi c : N) : bool := (lo <=? c) && (c <=? hi).

(** ECMAScript WhiteSpace and LineTerminator: what [trim] strips and what
    [\s] matches. *)
Definition isWhiteSpace (c : N) : bool :=
  inRange 9 13 c            (* TAB, LF, VT, FF, CR *)
  || (c =? 32)              (* SPACE *)
  || (c =? 160)             (* NO-BREAK SPACE *)
  || (c =? 5760)            (* U+1680 *)
  || inRange 8192 8202 c    (* U+2000 .. U+200A *)
  || (c =? 8232)            (* U+2028 LINE SEPARATOR *)
  || (c =? 8233)            (* U+2029 PARAGRAPH SEPARATOR *)
  || (c =? 8239)            (* U+202F *)
  || (c =? 8287)            (* U+205F *)
  || (c =? 12288)           (* U+3000 *)
  || (c =? 65279).          (* U+FEFF *)

Fixpoint dropWhile (p : N -> bool) (s : jsstring) : jsstring :=
  match s with
  | [] => []
  | c :: t => if p c then dropWhile p t else s
  end.

Definition trimStart (s : jsstring) : jsstring := dropWhile isWhiteSpace s.
Definition trimEnd (s : jsstring) : jsstring :=
  rev (dropWhile isWhiteSpace (rev s)).

(** [String.prototype.trim] *)
Definition trim (s : jsstring) : jsstring := trimEnd (trimStart s).

Definition isAscii (c : N) : bool := c <? 128.

(** Lower-casing of one Basic Latin code unit: A..Z move to a..z. *)
Definition asciiLower (c : N) : N :=
  if inRange 65 90 c then c + 32 else c.

(** ** The host

    Two built-ins of the JavaScript engine are not fixed by the two source
    files: the Unicode case mapping behind [toLowerCase] and what
    [new Date(string)] makes of a string outside the standard date-time
    format.  They are fields of the host; the laws are the part of
    ECMAScript the development relies on. *)
Record Host : Type := {
  (** [String.prototype.toLowerCase] *)
  toLowerCase : jsstring -> jsstring;
  (** the time value (milliseconds since the epoch) the engine assigns to a
      string that the standard format does not determine, [None] for NaN *)
  dateHeuristics : jsstring -> option Z;
  toLowerCase_ascii : forall s,
    forallb isAscii s = true -> toLowerCase s = List.map asciiLower s;
  toLowerCase_idem : forall s,
    toLowerCase (toLowerCase s) = toLowerCase s;
  toLowerCase_blank : forall s,
    trim (toLowerCase s) = [] -> trim s = []
}.

(** ** Regular expressions *)

(** Members of a character class. *)
Inductive citem : Type :=
| Single (c : N)          (* a literal member *)
| Range (lo hi : N)       (* lo-hi *)
| Space                   (* \s *)
| Digit.                  (* \d *)

Definition citem_mem (i : citem) (c : N) : bool :=
  match i with
  | Single x => c =? x
  | Range lo hi => inRange lo hi c
  | Space => isWhiteSpace c
  | Digit => inRange 48 57 c
  end.

(** A class [[...]] or a negated class [[^...]]. *)
Inductive cls : Type :=
| OneOf (items : list citem)
| NoneOf (items : list citem).

Definition cls_mem (k : cls) (c : N) : bool :=
  match k with
  | OneOf items => existsb (fun i => citem_mem i c) items
  | NoneOf items => negb (existsb (fun i => citem_mem i c) items)
  end.

(** The fragment of the pattern language the source uses. *)
Inductive regex : Type :=
| Chr (c : N)                 (* a literal character *)
| Cls (k : cls)               (* one character of a class *)
| Plus (k : cls)              (* class+ , greedy *)
| Seq (r1 r2 : regex)         (* r1 r2 *)
| Alt (r1 r2 : regex)         (* r1|r2 *)
| Opt (r : regex)             (* (?:r)? , greedy *)
| Grp (n : nat) (r : regex).  (* the n-th capturing group *)

(** Captured substrings, by group number. *)
Definition captures := list (nat * jsstring).

Fixpoint capture (n : nat) (caps : captures) : option jsstring :=
  match caps with
  | [] => None
  | (m, s) :: rest => if Nat.eqb m n then Some s else capture n rest
  end.

(** Greedy [class+] with backtracking: the longest run first, then shorter
    ones, each handed to the continuation. *)
Fixpoint plus_cls {A} (k : cls) (s : jsstring) (cont : jsstring -> option A)
  : option A :=
  match s with
  | [] => None
  | c :: t =>
      if cls_mem k c then
        match plus_cls k t cont with
        | Some r => Some r
        | None => cont t
        end
      else None
  end.

(** Backtracking matcher in continuation-passing style: [rmatch r s caps k]
    matches [r] at the head of [s] and passes what is left of [s] to [k];
    alternatives are tried left to right. *)
Fixpoint rmatch {A} (r : regex) (s : jsstring) (caps : captures)
    (k : jsstring -> captures -> option A) : option A :=
  match r with
  | Chr c =>
      match s with
      | x :: t => if x =? c then k t caps else None
      | [] => None
      end
  | Cls cl =>
      match s with
      | x :: t => if cls_mem cl x then k t caps else None
      | [] => None
      end
  | Plus cl => plus_cls cl s (fun t => k t caps)
  | Seq r1 r2 => rmatch r1 s caps (fun t c1 => rmatch r2 t c1 k)
  | Alt r1 r2 =>
      match rmatch r1 s caps k with
      | Some x => Some x
      | None => rmatch r2 s caps k
      end
  | Opt r1 =>
      match rmatch r1 s caps k with
      | Some x => Some x
      | None => k s caps
      end
  | Grp n r1 =>
      rmatch r1 s caps
        (fun t c1 => k t ((n, firstn (length s - length t) s) :: c1))
  end.

(** [/^r$/.exec(s)]: the pattern is anchored at both ends, so the only start
    index that can succeed is 0 and the match must use up the string. *)
Definition exec_anchored (r : regex) (s : jsstring) : option captures :=
  rmatch r s [] (fun t caps => match t with [] => Some caps | _ => None end).

(** [/^r$/.test(s)] *)
Definition test_anchored (r : regex) (s : jsstring) : bool :=
  match exec_anchored r s with Some _ => true | None => false end.

(** The match of [r] that starts at the head of [s]: what is left after it. *)
Definition match_here (r : regex) (s : jsstring) : option jsstring :=
  rmatch r s [] (fun t _ => Some t).

(** [s.replace(/r/g, rep)] for a constant replacement: scan from the left,
    replace each match and resume after it; after an empty match the scan
    moves on by one character.  No scan takes more steps than the string has
    characters, plus one. *)
Fixpoint replace_scan (fuel : nat) (r : regex) (rep s : jsstring) : jsstring :=
  match fuel with
  | O => s
  | S fuel' =>
      match match_here r s with
      | Some t =>
          if (length t <? length s)%nat then rep ++ replace_scan fuel' r rep t
          else
            match s with
            | [] => rep
            | c :: s' => rep ++ c :: replace_scan fuel' r rep s'
            end
      | None =>
          match s with
          | [] => []
          | c :: s' => c :: replace_scan fuel' r rep s'
          end
      end
  end.

Definition replaceAll (r : regex) (rep s : jsstring) : jsstring :=
  replace_scan (S (length s)) r rep s.

(** ** event.model.ts *)

(** [/[^a-z0-9\s-]/g] *)
Definition re_not_slug_char : regex :=
  Cls (NoneOf [Range (cu "a") (cu "z"); Range (cu "0") (cu "9"); Space;
               Single (cu "-")]).

(** [/\s+/g] *)
Definition re_spaces : regex := Plus (OneOf [Space]).

(** [/-+/g] *)
Definition re_hyphens : regex := Plus (OneOf [Single (cu "-")]).

Definition slugifyTitle (h : Host) (title : jsstring) : jsstring :=
  replaceAll re_hyphens (js "-")
    (replaceAll re_spaces (js "-")
      (replaceAll re_not_slug_char []
        (trim (toLowerCase h title)))).

(** What a thrown [Error] carries is its message; one constructor per
    [throw] of the two files. *)
Inductive error : Type :=
| TitleRequired | DescriptionRequired | OverviewRequired | ImageRequired
| VenueRequired | LocationRequired | ModeRequired | AudienceRequired
| OrganizerRequired
| AgendaRequired | TagsRequired
| AgendaItemEmpty | TagItemEmpty
| InvalidDateFormat | InvalidTimeFormat
| EmailRequired | InvalidEmailFormat | EventNotFound.

Definition message (e : error) : string :=
  match e with
  | TitleRequired => "Title is required."
  | DescriptionRequired => "Description is required."
  | OverviewRequired => "Overview is required."
  | ImageRequired => "Image is required."
  | VenueRequired => "Venue is required."
  | LocationRequired => "Location is required."
  | ModeRequired => "Mode is required."
  | AudienceRequired => "Audience is required."
  | OrganizerRequired => "Organizer is required."
  | AgendaRequired => "Agenda is required and cannot be empty."
  | TagsRequired => "Tags are required and cannot be empty."
  | AgendaItemEmpty => "Agenda items cannot be empty."
  | TagItemEmpty => "Tags cannot contain empty values."
  | InvalidDateFormat => "Invalid date format."
  | InvalidTimeFormat => "Invalid time format. Expected HH:MM (24-hour)."
  | EmailRequired => "Email is required."
  | InvalidEmailFormat => "Invalid email format."
  | EventNotFound => "Referenced event does not exist."
  end.

(** A computation that returns or throws. *)
Inductive result (A : Type) : Type :=
| Ok (a : A)
| Throw (e : error).
Arguments Ok {A} a.
Arguments Throw {A} e.

Definition bind {A B} (m : result A) (f : A -> result B) : result B :=
  match m with
  | Ok a => f a
  | Throw e => Throw e
  end.

Notation "'let!' x ':=' m 'in' k" := (bind m (fun x => k))
  (at level 10, x name, m at level 100, k at level 200).
Notation "'check!' m 'in' k" := (bind m (fun _ => k))
  (at level 10, m at level 100, k at level 200).

(** [if (cond) throw new Error(...)] *)
Definition throwIf (cond : bool) (e : error) : result unit :=
  if cond then Throw e else Ok tt.

(** [array.map(f)] for a callback that may throw: elements are visited in
    order and the first throw ends the loop. *)
Fixpoint mapM {A B} (f : A -> result B) (l : list A) : result (list B) :=
  match l with
  | [] => Ok []
  | x :: t => let! y := f x in let! ys := mapM f t in Ok (y :: ys)
  end.

(** A captured group inside a template literal. *)
Definition interpolate (o : option jsstring) : jsstring :=
  match o with
  | Some s => s
  | None => js "undefined"
  end.

(** [([01]\d|2[0-3])] *)
Definition re_hours : regex :=
  Grp 1 (Alt (Seq (Cls (OneOf [Single (cu "0"); Single (cu "1")]))
                  (Cls (OneOf [Digit])))
             (Seq (Chr (cu "2"))
                  (Cls (OneOf [Range (cu "0") (cu "3")])))).

(** [([0-5]\d)], as the group numbered [n] *)
Definition re_sixty (n : nat) : regex :=
  Grp n (Seq (Cls (OneOf [Range (cu "0") (cu "5")])) (Cls (OneOf [Digit]))).

(** [/^([01]\d|2[0-3]):([0-5]\d)(?::([0-5]\d))?$/] *)
Definition re_time : regex :=
  Seq re_hours
 (Seq (Chr (cu ":"))
 (Seq (re_sixty 2)
      (Opt (Seq (Chr (cu ":")) (re_sixty 3))))).

Definition normalizeTime (time : jsstring) : result jsstring :=
  let trimmed := trim time in
  match exec_anchored re_time trimmed with
  | None => Throw InvalidTimeFormat
  | Some m =>
      let hours := capture 1 m in
      let minutes := capture 2 m in
      Ok (interpolate hours ++ js ":" ++ interpolate minutes)
  end.

(** *** Dates: the ECMAScript time-value arithmetic behind [new Date] and
    the [getUTC...] accessors.  A time value is a number of milliseconds
    since 1970-01-01T00:00:00Z; divisions are floor divisions. *)

Local Open Scope Z_scope.

Definition msPerDay : Z := 86400000.

Definition Day (t : Z) : Z := t / msPerDay.

Definition DaysInYear (y : Z) : Z :=
  if negb (y mod 4 =? 0) then 365
  else if negb (y mod 100 =? 0) then 366
  else if negb (y mod 400 =? 0) then 365
  else 366.

Definition DayFromYear (y : Z) : Z :=
  365 * (y - 1970) + (y - 1969) / 4 - (y - 1901) / 100 + (y - 1601) / 400.

(** The largest [y] with [DayFromYear y <= Day t]: the mean-year estimate is
    off by at most one. *)
Definition YearFromTime (t : Z) : Z :=
  let d := Day t in
  let y := 1970 + (400 * d) / 146097 in
  if d <? DayFromYear y then y - 1
  else if DayFromYear (y + 1) <=? d then y + 1
  else y.

Definition InLeapYear (t : Z) : Z :=
  if DaysInYear (YearFromTime t) =? 366 then 1 else 0.

Definition DayWithinYear (t : Z) : Z := Day t - DayFromYear (YearFromTime t).

(** Months are numbered from 0. *)
Definition MonthFromTime (t : Z) : Z :=
  let d := DayWithinYear t in
  let l := InLeapYear t in
  if d <? 31 then 0
  else if d <? 59 + l then 1
  else if d <? 90 + l then 2
  else if d <? 120 + l then 3
  else if d <? 151 + l then 4
  else if d <? 181 + l then 5
  else if d <? 212 + l then 6
  else if d <? 243 + l then 7
  else if d <? 273 + l then 8
  else if d <? 304 + l then 9
  else if d <? 334 + l then 10
  else 11.

Definition DateFromTime (t : Z) : Z :=
  let d := DayWithinYear t in
  let l := InLeapYear t in
  match MonthFromTime t with
  | 0 => d + 1
  | 1 => d - 30
  | 2 => d - 58 - l
  | 3 => d - 89 - l
  | 4 => d - 119 - l
  | 5 => d - 150 - l
  | 6 => d - 180 - l
  | 7 => d - 211 - l
  | 8 => d - 242 - l
  | 9 => d - 272 - l
  | 10 => d - 303 - l
  | _ => d - 333 - l
  end.

(** Days of the year before the first of month [m] (from 0), [l] being 1 in
    a leap year. *)
Definition daysBeforeMonth (m l : Z) : Z :=
  match m with
  | 0 => 0
  | 1 => 31
  | 2 => 59 + l
  | 3 => 90 + l
  | 4 => 120 + l
  | 5 => 151 + l
  | 6 => 181 + l
  | 7 => 212 + l
  | 8 => 243 + l
  | 9 => 273 + l
  | 10 => 304 + l
  | _ => 334 + l
  end.

Definition DaysInMonth (y m : Z) : Z :=
  let l := if DaysInYear y =? 366 then 1 else 0 in
  match m with
  | 1 => 28 + l
  | 3 | 5 | 8 | 10 => 30
  | _ => 31
  end.

Definition MakeTime (hour min sec ms : Z) : Z :=
  hour * 3600000 + min * 60000 + sec * 1000 + ms.

(** [MakeDay(year, month, date)] with [month] from 0. *)
Definition MakeDay (year month date : Z) : Z :=
  let ym := year + month / 12 in
  let mn := month mod 12 in
  let l := if DaysInYear ym =? 366 then 1 else 0 in
  DayFromYear ym + daysBeforeMonth mn l + date - 1.

Definition MakeDate (day time : Z) : Z := day * msPerDay + time.

(** [None] is NaN. *)
Definition TimeClip (t : Z) : option Z :=
  if Z.abs t <=? 8640000000000000 then Some t else None.

(** *** The date-time string format of the standard *)

Definition digit (c : N) : option Z :=
  if inRange 48 57 c then Some (Z.of_N c - 48) else None.

Fixpoint readDigits (n : nat) (acc : Z) (s : jsstring) : option (Z * jsstring) :=
  match n with
  | O => Some (acc, s)
  | S n' =>
      match s with
      | c :: t => d ← digit c; readDigits n' (10 * acc + d) t
      | [] => None
      end
  end.

Definition expect (c : N) (s : jsstring) : option jsstring :=
  match s with
  | x :: t => if (x =? c)%N then Some t else None
  | [] => None
  end.

(** [YYYY], or a sign and six digits; [-000000] is not a year. *)
Definition readYear (s : jsstring) : option (Z * jsstring) :=
  match s with
  | c :: t =>
      if (c =? cu "+")%N then readDigits 6 0 t
      else if (c =? cu "-")%N then
        '(y, r) ← readDigits 6 0 t;
        if y =? 0 then None else Some (- y, r)
      else readDigits 4 0 s
  | [] => None
  end.

(** [YYYY], [YYYY-MM] or [YYYY-MM-DD]: year, month and day of the month,
    and what follows them. *)
Definition readDate (s : jsstring) : option (Z * Z * Z * jsstring) :=
  '(y, r) ← readYear s;
  match expect (cu "-") r with
  | None => Some (y, 1, 1, r)
  | Some r1 =>
      '(m, r2) ← readDigits 2 0 r1;
      match expect (cu "-") r2 with
      | None => Some (y, m, 1, r2)
      | Some r3 => '(d, r4) ← readDigits 2 0 r3; Some (y, m, d, r4)
      end
  end.

(** [HH:mm], [HH:mm:ss] or [HH:mm:ss.sss]: milliseconds into the day, and
    what follows. *)
Definition readTime (s : jsstring) : option (Z * jsstring) :=
  '(hh, r1) ← readDigits 2 0 s;
  r2 ← expect (cu ":") r1;
  '(mi, r3) ← readDigits 2 0 r2;
  if (23 <? hh) || (59 <? mi) then None else
  match expect (cu ":") r3 with
  | None => Some (MakeTime hh mi 0 0, r3)
  | Some r4 =>
      '(ss, r5) ← readDigits 2 0 r4;
      if 59 <? ss then None else
      match expect (cu ".") r5 with
      | None => Some (MakeTime hh mi ss 0, r5)
      | Some r6 => '(ms, r7) ← readDigits 3 0 r6; Some (MakeTime hh mi ss ms, r7)
      end
  end.

(** [Z] or [+HH:mm] or [-HH:mm], to the end of the string: the offset from
    UTC in milliseconds. *)
Definition readOffset (s : jsstring) : option Z :=
  match s with
  | c :: t =>
      if (c =? cu "Z")%N then match t with [] => Some 0 | _ => None end
      else if (c =? cu "+")%N || (c =? cu "-")%N then
        '(hh, r1) ← readDigits 2 0 t;
        r2 ← expect (cu ":") r1;
        '(mi, r3) ← readDigits 2 0 r2;
        match r3 with
        | [] =>
            if (23 <? hh) || (59 <? mi) then None
            else if (c =? cu "+")%N then Some (MakeTime hh mi 0 0)
            else Some (- MakeTime hh mi 0 0)
        | _ => None
        end
      else None
  | [] => None
  end.

(** The time value the standard itself fixes for a string: a date-only form
    (read as UTC) or a date-time form with an explicit UTC offset, with every
    field in range.  A date-time form without offset is local time and, like
    any other string, is left to the engine. *)
Definition parseStandard (s : jsstring) : option Z :=
  '(y, m, d, r) ← readDate s;
  if (m <? 1) || (12 <? m) || (d <? 1) || (DaysInMonth y (m - 1) <? d) then None
  else
    let day := MakeDay y (m - 1) d in
    match r with
    | [] => Some (MakeDate day 0)
    | _ =>
        r1 ← expect (cu "T") r;
        '(time, r2) ← readTime r1;
        offset ← readOffset r2;
        Some (MakeDate day time - offset)
    end.

(** [new Date(dateStr).getTime()], [None] for NaN. *)
Definition newDate (h : Host) (dateStr : jsstring) : option Z :=
  match parseStandard dateStr with
  | Some t => TimeClip t
  | None => t ← dateHeuristics h dateStr; TimeClip t
  end.

Definition getUTCFullYear (t : Z) : Z := YearFromTime t.
Definition getUTCMonth (t : Z) : Z := MonthFromTime t.
Definition getUTCDate (t : Z) : Z := DateFromTime t.

(** *** Numbers to strings *)

(** Decimal digits of [n], most significant first; [fuel] bounds their
    number. *)
Fixpoint decimal (fuel : nat) (n : N) : jsstring :=
  match fuel with
  | O => []
  | S f => (if (n <? 10)%N then [] else decimal f (n / 10)%N) ++ [(48 + n mod 10)%N]
  end.

(** [String(z)] for an integer [z]. *)
Definition numberToString (z : Z) : jsstring :=
  let n := Z.to_N (Z.abs z) in
  let digits := decimal (S (N.to_nat (N.log2 n))) n in
  if z <? 0 then cu "-" :: digits else digits.

(** [s.padStart(target, c)] for a one-character pad string. *)
Definition padStart (target : nat) (c : N) (s : jsstring) : jsstring :=
  repeat c (target - length s) ++ s.

Definition normalizeDate (h : Host) (dateStr : jsstring) : result jsstring :=
  match newDate h dateStr with
  | None => Throw InvalidDateFormat
  | Some parsed =>
      let year := getUTCFullYear parsed in
      let month := padStart 2 (cu "0") (numberToString (getUTCMonth parsed + 1)) in
      let day := padStart 2 (cu "0") (numberToString (getUTCDate parsed)) in
      Ok (numberToString year ++ js "-" ++ month ++ js "-" ++ day)
  end.

(** What [normalizeDate] returns for the time value [t]. *)
Definition dateString (t : Z) : jsstring :=
  numberToString (getUTCFullYear t) ++ js "-"
  ++ padStart 2 (cu "0") (numberToString (getUTCMonth t + 1)) ++ js "-"
  ++ padStart 2 (cu "0") (numberToString (getUTCDate t)).

(** The character of a decimal digit. *)
Definition digitChar (d : Z) : N := (48 + Z.to_N d)%N.

Local Close Scope Z_scope.

(** [!field?.trim()]: the field is absent or blank. *)
Definition missing (field : option jsstring) : bool :=
  match field with
  | Some s => match trim s with [] => true | _ => false end
  | None => true
  end.

(** A field used as a string, once the hook has seen that it is present. *)
Definition text (field : option jsstring) : jsstring :=
  match field with
  | Some s => s
  | None => []
  end.

(** [!trimmed] for a string. *)
Definition isEmpty (s : jsstring) : bool :=
  match s with [] => true | _ => false end.

Module EventModel.

(** The document the hook receives as [this]: the fields of the schema and
    what Mongoose knows about the document's history.  The nine fields the
    hook reads through [?.] and the two it tests with [Array.isArray] may be
    absent; [date] and [time] are used as strings. *)
Record EventDocument : Type := {
  title : option jsstring;
  slug : option jsstring;
  description : option jsstring;
  overview : option jsstring;
  image : option jsstring;
  venue : option jsstring;
  location : option jsstring;
  date : jsstring;
  time : jsstring;
  mode : option jsstring;
  audience : option jsstring;
  agenda : option (list jsstring);
  organizer : option jsstring;
  tags : option (list jsstring);
  isNew : bool;
  modifiedPaths : gset string
}.

(** [this.isModified(path)] *)
Definition isModified (this : EventDocument) (path : string) : bool :=
  bool_decide (path ∈ modifiedPaths this).

(** [!Array.isArray(a) || a.length === 0] *)
Definition noItems (a : option (list jsstring)) : bool :=
  match a with
  | Some (_ :: _) => false
  | _ => true
  end.

Definition items (a : option (list jsstring)) : list jsstring :=
  match a with
  | Some l => l
  | None => []
  end.

Definition agendaItem (item : jsstring) : result jsstring :=
  let trimmed := trim item in
  check! throwIf (isEmpty trimmed) AgendaItemEmpty in
  Ok trimmed.

Definition tagItem (h : Host) (tag : jsstring) : result jsstring :=
  let trimmed := trim tag in
  check! throwIf (isEmpty trimmed) TagItemEmpty in
  Ok (toLowerCase h trimmed).

(** The pre-save hook: [Ok] is [next()] with the document as the hook left
    it, [Throw e] is [next(e)].  [isNew] and [modifiedPaths] are the change
    tracking the hook reads; the result carries them along as read, the marks
    Mongoose sets for the hook's own assignments are not tracked. *)
Definition preSave (h : Host) (this : EventDocument) : result EventDocument :=
  check! throwIf (missing (title this)) TitleRequired in
  check! throwIf (missing (description this)) DescriptionRequired in
  check! throwIf (missing (overview this)) OverviewRequired in
  check! throwIf (missing (image this)) ImageRequired in
  check! throwIf (missing (venue this)) VenueRequired in
  check! throwIf (missing (location this)) LocationRequired in
  check! throwIf (missing (mode this)) ModeRequired in
  check! throwIf (missing (audience this)) AudienceRequired in
  check! throwIf (missing (organizer this)) OrganizerRequired in
  check! throwIf (noItems (agenda this)) AgendaRequired in
  check! throwIf (noItems (tags this)) TagsRequired in
  let! agenda' := mapM agendaItem (items (agenda this)) in
  let! tags' := mapM (tagItem h) (items (tags this)) in
  let! date' := normalizeDate h (date this) in
  let! time' := normalizeTime (time this) in
  let slug' :=
    if isNew this || isModified this "title"
    then Some (slugifyTitle h (text (title this)))
    else slug this in
  Ok {| title := title this;
        slug := slug';
        description := description this;
        overview := overview this;
        image := image this;
        venue := venue this;
        location := location this;
        date := date';
        time := time';
        mode := mode this;
        audience := audience this;
        agenda := Some agenda';
        organizer := organizer this;
        tags := Some tags';
        isNew := isNew this;
        modifiedPaths := modifiedPaths this |}.

End EventModel.

Module BookingModel.

Definition ObjectId := N.

Record BookingDocument : Type := {
  eventId : ObjectId;
  email : option jsstring;
  isNew : bool;
  modifiedPaths : gset string
}.

Definition isModified (this : BookingDocument) (path : string) : bool :=
  bool_decide (path ∈ modifiedPaths this).

(** [/^[^\s@]+@[^\s@]+\.[^\s@]+$/] *)
Definition emailRegex : regex :=
  Seq (Plus (NoneOf [Space; Single (cu "@")]))
 (Seq (Chr (cu "@"))
 (Seq (Plus (NoneOf [Space; Single (cu "@")]))
 (Seq (Chr (cu "."))
      (Plus (NoneOf [Space; Single (cu "@")]))))).

Definition isValidEmail (email : jsstring) : bool :=
  let trimmed := trim email in
  test_anchored emailRegex trimmed.

(** A query sent to the Event collection. *)
Inductive StoreCall : Type :=
| EventExists (id : ObjectId).

(** The pre-save hook, run against the Event collection [events]: the
    queries it sent, in order, and how it ended. *)
Definition preSave (events : gmap ObjectId EventModel.EventDocument)
    (this : BookingDocument) : list StoreCall * result BookingDocument :=
  if missing (email this) then ([], Throw EmailRequired)
  else if negb (isValidEmail (text (email this))) then
    ([], Throw InvalidEmailFormat)
  else if isNew this || isModified this "eventId" then
    let eventExists := events !! eventId this in
    ([EventExists (eventId this)],
     match eventExists with
     | None => Throw EventNotFound
     | Some _ => Ok this
     end)
  else ([], Ok this).

End BookingModel.

(** ** The vocabulary of the specification *)

(** The error kinds of the specification.  The source throws plain [Error]s;
    each message falls under one kind. *)
Inductive ErrorKind : Type :=
| MissingField | EmptyListItem | InvalidFormat | DanglingReference.

Definition kindOf (e : error) : ErrorKind :=
  match e with
  | TitleRequired | DescriptionRequired | OverviewRequired | ImageRequired
  | VenueRequired | LocationRequired | ModeRequired | AudienceRequired
  | OrganizerRequired | AgendaRequired | TagsRequired | EmailRequired =>
      MissingField
  | AgendaItemEmpty | TagItemEmpty => EmptyListItem
  | InvalidDateFormat | InvalidTimeFormat | InvalidEmailFormat => InvalidFormat
  | EventNotFound => DanglingReference
  end.

(** ** The specification's reading of the normalizers

    Second definitions, written after the specification's sentences, to be
    compared with the ones above. *)

Definition isLowerLetter (c : N) : bool := inRange 97 122 c.
Definition isDigitChar (c : N) : bool := inRange 48 57 c.
Definition isHyphen (c : N) : bool := c =? 45.

Definition startsWith (p : N -> bool) (s : jsstring) : bool :=
  match s with
  | c :: _ => p c
  | [] => false
  end.

(** Every maximal run of characters satisfying [p] becomes one hyphen. *)
Fixpoint collapseRuns (p : N -> bool) (s : jsstring) : jsstring :=
  match s with
  | [] => []
  | c :: t =>
      if p c then
        if startsWith p t then collapseRuns p t else 45 :: collapseRuns p t
      else c :: collapseRuns p t
  end.

(** Lower-case, trim, drop what is not a lower-case letter, a digit, white
    space or a hyphen, turn runs of white space into one hyphen, then runs of
    hyphens into one hyphen. *)
Definition spec_slugify (h : Host) (input : jsstring) : jsstring :=
  let lowered := toLowerCase h input in
  let trimmed := trim lowered in
  let kept :=
    List.filter
      (fun c => isLowerLetter c || isDigitChar c || isWhiteSpace c || isHyphen c)
      trimmed in
  let dashed := collapseRuns isWhiteSpace kept in
  collapseRuns isHyphen dashed.

(** A character of [[a-z0-9-]]. *)
Definition slugChar (c : N) : bool :=
  isLowerLetter c || isDigitChar c || isHyphen c.

(** A lower-case letter or a digit. *)
Definition alnum (c : N) : bool := isLowerLetter c || isDigitChar c.

Fixpoint noDoubleHyphen (s : jsstring) : bool :=
  match s with
  | [] => true
  | c :: t => negb (isHyphen c && startsWith isHyphen t) && noDoubleHyphen t
  end.

(** URL-safe: not empty, in [[a-z0-9-]+], no hyphen at either end and no two
    hyphens in a row. *)
Definition urlSafe (s : jsstring) : bool :=
  negb (isEmpty s)
  && forallb slugChar s
  && negb (startsWith isHyphen s)
  && negb (startsWith isHyphen (rev s))
  && noDoubleHyphen s.

(** The value of a two-digit field, when both characters are digits. *)
Definition twoDigits (a b : N) : option N :=
  if isDigitChar a && isDigitChar b then Some (10 * (a - 48) + (b - 48))
  else None.

Definition fieldUpTo (max a b : N) : bool :=
  match twoDigits a b with
  | Some v => v <=? max
  | None => false
  end.

(** [HH:MM] or [HH:MM:SS] with hours up to 23 and minutes and seconds up to
    59: the [HH:MM] part of such a string. *)
Definition spec_time (s : jsstring) : option jsstring :=
  match s with
  | [h1; h2; c1; m1; m2] =>
      if fieldUpTo 23 h1 h2 && (c1 =? 58) && fieldUpTo 59 m1 m2
      then Some [h1; h2; 58; m1; m2] else None
  | [h1; h2; c1; m1; m2; c2; s1; s2] =>
      if fieldUpTo 23 h1 h2 && (c1 =? 58) && fieldUpTo 59 m1 m2
         && (c2 =? 58) && fieldUpTo 59 s1 s2
      then Some [h1; h2; 58; m1; m2] else None
  | _ => None
  end.

Definition spec_normalizeTime (input : jsstring) : result jsstring :=
  match spec_time (trim input) with
  | Some hhmm => Ok hhmm
  | None => Throw InvalidTimeFormat
  end.

(** The canonical [HH:MM] form. *)
Definition isCanonicalTime (s : jsstring) : bool :=
  match s with
  | [h1; h2; c; m1; m2] => fieldUpTo 23 h1 h2 && (c =? 58) && fieldUpTo 59 m1 m2
  | _ => false
  end.

(** The canonical [YYYY-MM-DD] form: four digits, two digits from 01 to 12,
    two digits from 01 to 31, separated by hyphens. *)
Definition isCanonicalDate (s : jsstring) : bool :=
  match s with
  | [y1; y2; y3; y4; c1; m1; m2; c2; d1; d2] =>
      forallb isDigitChar [y1; y2; y3; y4]
      && (c1 =? 45) && (c2 =? 45)
      && fieldUpTo 12 m1 m2 && negb (fieldUpTo 0 m1 m2)
      && fieldUpTo 31 d1 d2 && negb (fieldUpTo 0 d1 d2)
  | _ => false
  end.

(** Neither white space nor [@]. *)
Definition plain (c : N) : bool := negb (isWhiteSpace c) && negb (c =? 64).

(** ** The order of the checks *)

Definition throws {A} (r : result A) : bool :=
  match r with
  | Ok _ => false
  | Throw _ => true
  end.

(** Some element is empty after trimming. *)
Definition blankItem (l : list jsstring) : bool :=
  existsb (fun item => isEmpty (trim item)) l.

(** A sequence of checks, each with the error it raises: the first check that
    fails decides the outcome. *)
Fixpoint firstFailure (checks : list (bool * error)) : option error :=
  match checks with
  | [] => None
  | (failed, e) :: rest => if failed then Some e else firstFailure rest
  end.

Module EventSteps.
Import EventModel.

Definition presence (this : EventDocument) : list (bool * error) :=
  [ (missing (title this), TitleRequired);
    (missing (description this), DescriptionRequired);
    (missing (overview this), OverviewRequired);
    (missing (image this), ImageRequired);
    (missing (venue this), VenueRequired);
    (missing (location this), LocationRequired);
    (missing (mode this), ModeRequired);
    (missing (audience this), AudienceRequired);
    (missing (organizer this), OrganizerRequired) ].

Definition temporal (h : Host) (this : EventDocument) : list (bool * error) :=
  [ (throws (normalizeDate h (date this)), InvalidDateFormat);
    (throws (normalizeTime (time this)), InvalidTimeFormat) ].

(** The steps in the order of the specification: agenda as a whole, then
    tags as a whole. *)
Definition specOrder (h : Host) (this : EventDocument) : list (bool * error) :=
  presence this ++
  [ (noItems (agenda this), AgendaRequired);
    (blankItem (items (agenda this)), AgendaItemEmpty);
    (noItems (tags this), TagsRequired);
    (blankItem (items (tags this)), TagItemEmpty) ] ++
  temporal h this.

(** The steps in the order of the hook: both lists are checked for being
    non-empty before the elements of either are looked at. *)
Definition hookOrder (h : Host) (this : EventDocument) : list (bool * error) :=
  presence this ++
  [ (noItems (agenda this), AgendaRequired);
    (noItems (tags this), TagsRequired);
    (blankItem (items (agenda this)), AgendaItemEmpty);
    (blankItem (items (tags this)), TagItemEmpty) ] ++
  temporal h this.

(** What the hook stores when every check passes. *)
Definition saved (h : Host) (this : EventDocument) (date' time' : jsstring)
  : EventDocument :=
  {| title := title this;
     slug := if isNew this || isModified this "title"
             then Some (slugifyTitle h (text (title this)))
             else slug this;
     description := description this;
     overview := overview this;
     image := image this;
     venue := venue this;
     location := location this;
     date := date';
     time := time';
     mode := mode this;
     audience := audience this;
     agenda := Some (List.map trim (items (agenda this)));
     organizer := organizer this;
     tags := Some (List.map (fun tag => toLowerCase h (trim tag)) (items (tags this)));
     isNew := isNew this;
     modifiedPaths := modifiedPaths this |}.

End EventSteps.

(** ** Sample documents *)

Module Samples.
Import EventModel.

(** An event document with every field a caller would send; the parts the
    examples vary are left open. *)
Definition sampleEvent (title' : jsstring) (slug' : option jsstring)
    (date' time' : jsstring) (agenda' tags' : list jsstring)
    (isNew' : bool) (modified : gset string) : EventDocument :=
  {| title := Some title';
     slug := slug';
     description := Some (js "Three days of talks");
     overview := Some (js "Conference");
     image := Some (js "/images/summit.png");
     venue := Some (js "Main Hall");
     location := Some (js "Amsterdam");
     date := date';
     time := time';
     mode := Some (js "offline");
     audience := Some (js "Developers");
     agenda := Some agenda';
     organizer := Some (js "Dev Events");
     tags := Some tags';
     isNew := isNew';
     modifiedPaths := modified |}.

Definition reactSummit : EventDocument :=
  sampleEvent (js "React Summit 2024") None (js "2024-03-01") (js "09:05")
    [js "Keynote"] [js "react"] true ∅.

Definition blankAgenda : EventDocument :=
  sampleEvent (js "React Summit 2024") None (js "2024-03-01") (js "09:05")
    [js "  "; js "Keynote"] [js "react"] true ∅.

Definition blankAgendaNoTags : EventDocument :=
  sampleEvent (js "React Summit 2024") None (js "2024-03-01") (js "09:05")
    [js "  "; js "Keynote"] [] true ∅.

Definition punctuationTitle : EventDocument :=
  sampleEvent (js "!!!") None (js "2024-03-01") (js "09:05")
    [js "Keynote"] [js "react"] true ∅.

Definition hyphenTitle : EventDocument :=
  sampleEvent (js "-a-") None (js "2024-03-01") (js "09:05")
    [js "Keynote"] [js "react"] true ∅.

Definition yearNinetyNine : EventDocument :=
  sampleEvent (js "React Summit") None (js "0099-01-01") (js "09:05")
    [js "Keynote"] [js "react"] true ∅.

(** An existing document whose description was edited. *)
Definition editedDescription : EventDocument :=
  sampleEvent (js "React Summit 2024") (Some (js "old-slug"))
    (js "2025-01-01") (js "10:00") [js "Intro"] [js "new"] false
    {["description"]}.

(** An existing document whose title was edited. *)
Definition editedTitle : EventDocument :=
  sampleEvent (js "Vue Conf 2025") (Some (js "old-slug"))
    (js "2025-01-01") (js "10:00") [js "Intro"] [js "new"] false
    {["title"]}.

Definition newBooking (email' : option jsstring)
  : BookingModel.BookingDocument :=
  {| BookingModel.eventId := 7;
     BookingModel.email := email';
     BookingModel.isNew := true;
     BookingModel.modifiedPaths := ∅ |}.

(** An existing booking whose e-mail was edited. *)
Definition editedEmail : BookingModel.BookingDocument :=
  {| BookingModel.eventId := 7;
     BookingModel.email := Some (js "user@example.com");
     BookingModel.isNew := false;
     BookingModel.modifiedPaths := {["email"]} |}.

(** A collection that holds one event, with id 7. *)
Definition oneEvent : gmap BookingModel.ObjectId EventDocument :=
  {[ 7 := reactSummit ]}.

End Samples.

(** ** Vocabulary of the further properties *)

(** [words.join(sep)] for a one-character separator. *)
Fixpoint joinWith (sep : N) (words : list jsstring) : jsstring :=
  match words with
  | [] => []
  | w :: rest =>
      match rest with
      | [] => w
      | _ :: _ => w ++ sep :: joinWith sep rest
      end
  end.

(** A Basic Latin letter of either case, or a digit. *)
Definition isWordChar (c : N) : bool :=
  inRange 65 90 c || inRange 97 122 c || inRange 48 57 c.

(** A non-empty word of letters and digits. *)
Definition isWord (w : jsstring) : bool :=
  negb (isEmpty w) && forallb isWordChar w.

(** A non-empty word of lower-case letters and digits. *)
Definition isSlugWord (w : jsstring) : bool :=
  negb (isEmpty w) && forallb alnum w.

Local Open Scope Z_scope.

(** A number below 100 as two digits. *)
Definition pad2 (n : Z) : jsstring := [digitChar (n / 10); digitChar (n mod 10)].

(** A year from 0 to 9999 as four digits. *)
Definition year4 (y : Z) : jsstring :=
  [digitChar (y / 1000); digitChar (y / 100 mod 10);
   digitChar (y / 10 mod 10); digitChar (y mod 10)].

(** [YYYY-MM-DD] for year [y], month [m] (from 1) and day [d]. *)
Definition civilString (y m d : Z) : jsstring :=
  year4 y ++ 45%N :: pad2 m ++ 45%N :: pad2 d.

(** A date of the calendar with a four-digit year. *)
Definition validCivil (y m d : Z) : bool :=
  (1000 <=? y) && (y <=? 9999) && (1 <=? m) && (m <=? 12)
  && (1 <=? d) && (d <=? DaysInMonth y (m - 1)).

(** [HH:mm:ss] *)
Definition clockString (hh mi ss : Z) : jsstring :=
  pad2 hh ++ 58%N :: pad2 mi ++ 58%N :: pad2 ss.

Definition validClock (hh mi ss : Z) : bool :=
  (0 <=? hh) && (hh <=? 23) && (0 <=? mi) && (mi <=? 59)
  && (0 <=? ss) && (ss <=? 59).




Local Close Scope Z_scope.

Module EventContent.
Import EventModel.

(** Two documents that differ at most in slug, isNew and the modified
    paths. *)
Definition sameContent (a b : EventDocument) : Prop :=
  [title a; description a; overview a; image a; venue a; location a;
   mode a; audience a; organizer a]
  = [title b; description b; overview b; image b; venue b; location b;
     mode b; audience b; organizer b] /\
  date a = date b /\ time a = time b /\
  agenda a = agenda b /\ tags a = tags b.

End EventContent.

(** * Properties *)

(** ** Code units, [trim] and the reference host *)

(** ** Booleans over code units *)

(** Case analysis on every comparison of code units in sight, dropping the
    cases arithmetic rules out. *)
Ltac cmp_step :=
  match goal with
  | H : context [(?a <=? ?b)%N] |- _ => destruct (N.leb_spec a b)
  | H : context [(?a <? ?b)%N] |- _ => destruct (N.ltb_spec a b)
  | H : context [(?a =? ?b)%N] |- _ => destruct (N.eqb_spec a b)
  | |- context [(?a <=? ?b)%N] => destruct (N.leb_spec a b)
  | |- context [(?a <? ?b)%N] => destruct (N.ltb_spec a b)
  | |- context [(?a =? ?b)%N] => destruct (N.eqb_spec a b)
  end; simpl in *; try discriminate; try lia.

Ltac cmp_solve :=
  repeat cmp_step; simpl in *; try discriminate; try reflexivity; try lia.

Lemma isWhiteSpace_asciiLower c : isWhiteSpace (asciiLower c) = isWhiteSpace c.
Proof.
  unfold asciiLower. destruct (inRange 65 90 c) eqn:E; [|reflexivity].
  unfold isWhiteSpace, inRange in *. cmp_solve.
Qed.

Lemma asciiLower_idem c : asciiLower (asciiLower c) = asciiLower c.
Proof.
  unfold asciiLower. destruct (inRange 65 90 c) eqn:E; [|rewrite E; reflexivity].
  unfold inRange in *. cmp_solve.
Qed.

(** ** [dropWhile] and [trim] *)

Definition headFails (p : N -> bool) (s : jsstring) : Prop :=
  match s with
  | [] => True
  | c :: _ => p c = false
  end.

Lemma dropWhile_head p s : headFails p (dropWhile p s).
Proof.
  induction s as [|c t IH]; simpl; [exact I|].
  destruct (p c) eqn:E; [exact IH | exact E].
Qed.

Lemma dropWhile_fixed p s : headFails p s -> dropWhile p s = s.
Proof. destruct s as [|c t]; simpl; [reflexivity|]. intros ->. reflexivity. Qed.

Lemma dropWhile_split p s :
  exists pre, s = pre ++ dropWhile p s /\ forallb p pre = true.
Proof.
  induction s as [|c t (pre & Hs & Hp)]; simpl.
  - exists []. split; reflexivity.
  - destruct (p c) eqn:E.
    + exists (c :: pre). simpl. rewrite E, Hp. split; [f_equal; exact Hs | reflexivity].
    + exists []. split; reflexivity.
Qed.

Lemma dropWhile_all p s : forallb p s = true -> dropWhile p s = [].
Proof.
  induction s as [|c t IH]; simpl; [reflexivity|].
  intros H. apply andb_true_iff in H as [-> H]. exact (IH H).
Qed.

Lemma dropWhile_nil p s : dropWhile p s = [] -> forallb p s = true.
Proof.
  induction s as [|c t IH]; simpl; [reflexivity|].
  destruct (p c); [exact IH | discriminate].
Qed.

Lemma dropWhile_length p s : (length (dropWhile p s) <= length s)%nat.
Proof.
  induction s as [|c t IH]; simpl; [lia|]. destruct (p c); simpl; lia.
Qed.

Lemma dropWhile_map p f s :
  (forall c, p (f c) = p c) ->
  dropWhile p (List.map f s) = List.map f (dropWhile p s).
Proof.
  intros Hf. induction s as [|c t IH]; simpl; [reflexivity|].
  rewrite Hf. destruct (p c); [exact IH | reflexivity].
Qed.

Lemma headFails_app p s t : s <> [] -> headFails p (s ++ t) -> headFails p s.
Proof. destruct s; [congruence | simpl; auto]. Qed.

(** A trimmed string neither starts nor ends with white space. *)
Lemma trim_head s : headFails isWhiteSpace (trim s).
Proof.
  unfold trim, trimEnd, trimStart.
  set (u := dropWhile isWhiteSpace s).
  assert (Hu : headFails isWhiteSpace u) by apply dropWhile_head.
  destruct (dropWhile_split isWhiteSpace (rev u)) as (pre & Hsplit & _).
  set (v := dropWhile isWhiteSpace (rev u)) in *.
  destruct v as [|c v'] eqn:Ev; [exact I|].
  apply (f_equal (@rev N)) in Hsplit. rewrite rev_involutive, rev_app_distr in Hsplit.
  rewrite Hsplit in Hu.
  eapply headFails_app; [|exact Hu].
  simpl. intros Hnil. apply app_eq_nil in Hnil as [_ Hnil]. discriminate.
Qed.

Lemma trim_last s : headFails isWhiteSpace (rev (trim s)).
Proof.
  unfold trim, trimEnd. rewrite rev_involutive. apply dropWhile_head.
Qed.

Lemma trim_fixed s :
  headFails isWhiteSpace s -> headFails isWhiteSpace (rev s) -> trim s = s.
Proof.
  intros H1 H2. unfold trim, trimEnd, trimStart.
  rewrite (dropWhile_fixed _ s H1), (dropWhile_fixed _ _ H2).
  apply rev_involutive.
Qed.

Lemma trim_idem s : trim (trim s) = trim s.
Proof. apply trim_fixed; [apply trim_head | apply trim_last]. Qed.

Lemma trim_map f s :
  (forall c, isWhiteSpace (f c) = isWhiteSpace c) ->
  trim (List.map f s) = List.map f (trim s).
Proof.
  intros Hf. unfold trim, trimEnd, trimStart.
  rewrite (dropWhile_map _ _ _ Hf), <- map_rev, (dropWhile_map _ _ _ Hf), map_rev.
  reflexivity.
Qed.

Lemma trim_blank s : trim s = [] <-> forallb isWhiteSpace s = true.
Proof.
  unfold trim, trimEnd, trimStart. split.
  - intros H. apply (f_equal (@rev N)) in H. rewrite rev_involutive in H. simpl in H.
    apply dropWhile_nil in H.
    destruct (dropWhile_split isWhiteSpace s) as (pre & Hs & Hp).
    rewrite Hs, forallb_app, Hp. simpl.
    rewrite forallb_forall in *. intros x Hx. apply H. apply in_rev.
    rewrite rev_involutive. exact Hx.
  - intros H. rewrite (dropWhile_all _ _ H). reflexivity.
Qed.

Lemma map_asciiLower_idem s :
  List.map asciiLower (List.map asciiLower s) = List.map asciiLower s.
Proof. rewrite List.map_map. apply List.map_ext. apply asciiLower_idem. Qed.

Lemma map_asciiLower_blank s : trim (List.map asciiLower s) = [] -> trim s = [].
Proof.
  intros H. rewrite (trim_map _ _ isWhiteSpace_asciiLower) in H.
  destruct (trim s); [reflexivity | discriminate].
Qed.

(** An engine that lower-cases Basic Latin only and recognises no date
    outside the standard format. *)
Definition strictHost : Host :=
  {| toLowerCase := List.map asciiLower;
     dateHeuristics := fun _ => None;
     toLowerCase_ascii := fun s _ => eq_refl;
     toLowerCase_idem := map_asciiLower_idem;
     toLowerCase_blank := map_asciiLower_blank |}.

(** ** The matcher, global replacement and the slug generator *)

Lemma plus_cls_greedy k s :
  plus_cls k s (fun t => Some t) =
  match s with
  | c :: t => if cls_mem k c then Some (dropWhile (cls_mem k) t) else None
  | [] => None
  end.
Proof.
  induction s as [|c t IH]; simpl; [reflexivity|].
  destruct (cls_mem k c); [|reflexivity].
  rewrite IH. destruct t as [|c' t']; simpl; [reflexivity|].
  destruct (cls_mem k c'); reflexivity.
Qed.

Lemma plus_cls_sound {A} k s (cont : jsstring -> option A) r :
  plus_cls k s cont = Some r ->
  exists pre t, s = pre ++ t /\ pre <> [] /\
                forallb (cls_mem k) pre = true /\ cont t = Some r.
Proof.
  induction s as [|c t IH]; simpl; [discriminate|].
  destruct (cls_mem k c) eqn:E; [|discriminate].
  destruct (plus_cls k t cont) eqn:P.
  - intros [= <-]. destruct (IH eq_refl) as (pre & t' & -> & _ & Hp & Hc).
    exists (c :: pre), t'. simpl. rewrite E, Hp. repeat split; [discriminate | exact Hc].
  - intros Hc. exists [c], t. simpl. rewrite E. repeat split; [discriminate | exact Hc].
Qed.

Lemma plus_cls_complete {A} k pre t (cont : jsstring -> option A) :
  pre <> [] -> forallb (cls_mem k) pre = true ->
  (exists r, cont t = Some r) ->
  exists r, plus_cls k (pre ++ t) cont = Some r.
Proof.
  intros Hne Hp Hc. induction pre as [|c pre IH]; [congruence|].
  simpl in *. apply andb_true_iff in Hp as [-> Hp].
  destruct pre as [|c' pre'].
  - simpl. destruct (plus_cls k t cont); eauto.
  - destruct IH as [r ->]; [discriminate | exact Hp | eauto].
Qed.

Lemma replace_scan_Cls k rep : forall fuel s,
  (length s < fuel)%nat ->
  replace_scan fuel (Cls k) rep s =
  flat_map (fun c => if cls_mem k c then rep else [c]) s.
Proof.
  induction fuel as [|fuel IH]; intros s Hlen; [lia|].
  destruct s as [|c t]; [reflexivity|].
  simpl in Hlen. cbn [replace_scan flat_map]. unfold match_here. cbn [rmatch].
  destruct (cls_mem k c).
  - replace (length t <? length (c :: t))%nat with true
      by (symmetry; apply Nat.ltb_lt; simpl; lia).
    rewrite IH by lia. reflexivity.
  - rewrite IH by lia. reflexivity.
Qed.

Lemma replaceAll_Cls_remove k s :
  replaceAll (Cls k) [] s = List.filter (fun c => negb (cls_mem k c)) s.
Proof.
  unfold replaceAll. rewrite replace_scan_Cls by lia.
  induction s as [|c t IH]; simpl; [reflexivity|].
  destruct (cls_mem k c); simpl; rewrite IH; reflexivity.
Qed.

Lemma collapseRuns_cons p c t :
  collapseRuns p (c :: t) =
  if p c then
    if startsWith p t then collapseRuns p t else 45 :: collapseRuns p t
  else c :: collapseRuns p t.
Proof. reflexivity. Qed.

Lemma collapseRuns_run p c t :
  p c = true ->
  collapseRuns p (c :: t) = 45 :: collapseRuns p (dropWhile p t).
Proof.
  revert c. induction t as [|c' t' IH]; intros c Hc.
  - simpl. rewrite Hc. reflexivity.
  - rewrite collapseRuns_cons, Hc. cbn [startsWith dropWhile].
    destruct (p c') eqn:E; [|reflexivity].
    apply IH. exact E.
Qed.

Lemma replace_scan_Plus k : forall fuel s,
  (length s < fuel)%nat ->
  replace_scan fuel (Plus k) [45] s = collapseRuns (cls_mem k) s.
Proof.
  induction fuel as [|fuel IH]; intros s Hlen; [lia|].
  destruct s as [|c t]; [reflexivity|].
  simpl in Hlen. cbn [replace_scan]. unfold match_here. cbn [rmatch].
  rewrite plus_cls_greedy.
  destruct (cls_mem k c) eqn:E.
  - pose proof (dropWhile_length (cls_mem k) t) as Hd.
    replace (length (dropWhile (cls_mem k) t) <? length (c :: t))%nat with true
      by (symmetry; apply Nat.ltb_lt; simpl; lia).
    rewrite IH by lia. rewrite (collapseRuns_run _ _ _ E). reflexivity.
  - rewrite IH by lia. simpl. rewrite E. reflexivity.
Qed.

Lemma replaceAll_Plus k s :
  replaceAll (Plus k) [45] s = collapseRuns (cls_mem k) s.
Proof. apply replace_scan_Plus. lia. Qed.

Lemma collapseRuns_ext p q s :
  (forall c, p c = q c) -> collapseRuns p s = collapseRuns q s.
Proof.
  intros H. induction s as [|c t IH]; simpl; [reflexivity|].
  rewrite IH, H. destruct t; simpl; rewrite ?H; reflexivity.
Qed.

Lemma filter_ext_bool (p q : N -> bool) s :
  (forall c, p c = q c) -> List.filter p s = List.filter q s.
Proof.
  intros H. induction s as [|c t IH]; simpl; [reflexivity|]. rewrite H, IH. reflexivity.
Qed.

(** The generator is the pipeline the specification describes. *)
Lemma slugifyTitle_spec h title : slugifyTitle h title = spec_slugify h title.
Proof.
  unfold slugifyTitle, spec_slugify, re_hyphens, re_spaces, re_not_slug_char.
  change (js "-") with [45].
  rewrite !replaceAll_Plus, replaceAll_Cls_remove.
  rewrite (collapseRuns_ext (cls_mem (OneOf [Single (cu "-")])) isHyphen)
    by (intros c; simpl; apply orb_false_r).
  rewrite (collapseRuns_ext (cls_mem (OneOf [Space])) isWhiteSpace)
    by (intros c; simpl; apply orb_false_r).
  f_equal. f_equal. apply filter_ext_bool. intros c. simpl.
  unfold isLowerLetter, isDigitChar, isHyphen.
  change (cu "a") with 97. change (cu "z") with 122.
  change (cu "0") with 48. change (cu "9") with 57. change (cu "-") with 45.
  rewrite negb_involutive, orb_false_r, !orb_assoc. reflexivity.
Qed.

(** ** Shape of a slug *)

Lemma collapseRuns_forallb (q p : N -> bool) s :
  q 45 = true ->
  forallb (fun c => q c || p c) s = true ->
  forallb q (collapseRuns p s) = true.
Proof.
  intros Hq. induction s as [|c t IH]; [reflexivity|].
  rewrite collapseRuns_cons. cbn [forallb]. intros H.
  apply andb_true_iff in H as [Hc Ht]. specialize (IH Ht).
  destruct (p c) eqn:E.
  - destruct (startsWith p t); [exact IH|]. cbn [forallb]. rewrite Hq, IH. reflexivity.
  - rewrite orb_false_r in Hc. cbn [forallb]. rewrite Hc, IH. reflexivity.
Qed.

Lemma startsWith_collapseRuns p s :
  p 45 = true -> startsWith p (collapseRuns p s) = startsWith p s.
Proof.
  intros Hp. induction s as [|c t IH]; [reflexivity|].
  rewrite collapseRuns_cons. cbn [startsWith].
  destruct (p c) eqn:E; [|simpl; exact E].
  destruct (startsWith p t) eqn:S; [exact IH | simpl; exact Hp].
Qed.

Lemma noDoubleHyphen_collapseRuns s :
  noDoubleHyphen (collapseRuns isHyphen s) = true.
Proof.
  induction s as [|c t IH]; [reflexivity|].
  rewrite collapseRuns_cons.
  destruct (isHyphen c) eqn:E.
  - destruct (startsWith isHyphen t) eqn:S; [exact IH|].
    cbn [noDoubleHyphen]. rewrite startsWith_collapseRuns, S, IH by reflexivity.
    reflexivity.
  - cbn [noDoubleHyphen]. rewrite E, IH. reflexivity.
Qed.

Lemma collapseRuns_none p s :
  forallb (fun c => negb (p c)) s = true -> collapseRuns p s = s.
Proof.
  induction s as [|c t IH]; [reflexivity|].
  cbn [forallb]. intros H. apply andb_true_iff in H as [Hc Ht].
  rewrite collapseRuns_cons. apply negb_true_iff in Hc. rewrite Hc, (IH Ht). reflexivity.
Qed.

Lemma collapseRuns_single s :
  noDoubleHyphen s = true -> collapseRuns isHyphen s = s.
Proof.
  induction s as [|c t IH]; [reflexivity|].
  cbn [noDoubleHyphen]. intros H. apply andb_true_iff in H as [Hc Ht].
  rewrite collapseRuns_cons, (IH Ht).
  destruct (isHyphen c) eqn:E; [|reflexivity].
  simpl in Hc. apply negb_true_iff in Hc. rewrite Hc.
  unfold isHyphen in E. apply N.eqb_eq in E. subst c. reflexivity.
Qed.

Lemma collapseRuns_snoc p s c :
  p c = false -> collapseRuns p (s ++ [c]) = collapseRuns p s ++ [c].
Proof.
  intros Hc. induction s as [|a t IH].
  - simpl. rewrite Hc. reflexivity.
  - change ((a :: t) ++ [c]) with (a :: (t ++ [c])).
    rewrite !collapseRuns_cons, IH.
    assert (startsWith p (t ++ [c]) = startsWith p t) as ->
      by (destruct t; simpl; [exact Hc | reflexivity]).
    destruct (p a), (startsWith p t); reflexivity.
Qed.

Lemma filter_snoc (p : N -> bool) s c :
  p c = true -> List.filter p (s ++ [c]) = List.filter p s ++ [c].
Proof. intros Hc. rewrite List.filter_app. simpl. rewrite Hc. reflexivity. Qed.

Lemma forallb_filter (p : N -> bool) s : forallb p (List.filter p s) = true.
Proof.
  induction s as [|c t IH]; [reflexivity|]. simpl.
  destruct (p c) eqn:E; [simpl; rewrite E; exact IH | exact IH].
Qed.

Lemma forallb_impl (p q : N -> bool) s :
  (forall c, p c = true -> q c = true) ->
  forallb p s = true -> forallb q s = true.
Proof.
  intros H. rewrite !forallb_forall. auto.
Qed.

Lemma slugChar_not_space c : slugChar c = true -> isWhiteSpace c = false.
Proof.
  unfold slugChar, isLowerLetter, isDigitChar, isHyphen, isWhiteSpace, inRange.
  cmp_solve.
Qed.

Lemma slugChar_ascii c : slugChar c = true -> isAscii c = true.
Proof.
  unfold slugChar, isLowerLetter, isDigitChar, isHyphen, isAscii, inRange.
  cmp_solve.
Qed.

Lemma slugChar_lower c : slugChar c = true -> asciiLower c = c.
Proof.
  unfold slugChar, isLowerLetter, isDigitChar, isHyphen, asciiLower, inRange.
  cmp_solve.
Qed.

Lemma alnum_slugChar c : alnum c = true -> slugChar c = true.
Proof. unfold alnum, slugChar. intros ->. reflexivity. Qed.

Lemma alnum_not_hyphen c : alnum c = true -> isHyphen c = false.
Proof.
  unfold alnum, isLowerLetter, isDigitChar, isHyphen, inRange. cmp_solve.
Qed.

Lemma spec_slugify_chars h title : forallb slugChar (spec_slugify h title) = true.
Proof.
  unfold spec_slugify.
  apply collapseRuns_forallb; [reflexivity|].
  apply forallb_impl with (p := slugChar); [intros c ->; reflexivity|].
  apply collapseRuns_forallb; [reflexivity|].
  eapply forallb_impl; [|apply forallb_filter].
  intros c. unfold slugChar. cbv beta.
  destruct (isLowerLetter c), (isDigitChar c), (isWhiteSpace c), (isHyphen c);
    reflexivity || discriminate.
Qed.

Lemma slugifyTitle_chars h title : forallb slugChar (slugifyTitle h title) = true.
Proof. rewrite slugifyTitle_spec. apply spec_slugify_chars. Qed.

Lemma slugifyTitle_noDoubleHyphen h title :
  noDoubleHyphen (slugifyTitle h title) = true.
Proof. rewrite slugifyTitle_spec. apply noDoubleHyphen_collapseRuns. Qed.

Lemma map_fixed (f : N -> N) (p : N -> bool) s :
  (forall c, p c = true -> f c = c) -> forallb p s = true -> List.map f s = s.
Proof.
  intros H. induction s as [|c t IH]; [reflexivity|]. simpl.
  intros [Hc Ht]%andb_true_iff. rewrite (H c Hc), (IH Ht). reflexivity.
Qed.

Lemma filter_fixed (p : N -> bool) s :
  forallb p s = true -> List.filter p s = s.
Proof.
  induction s as [|c t IH]; [reflexivity|]. simpl.
  intros [-> Ht]%andb_true_iff. rewrite (IH Ht). reflexivity.
Qed.

Lemma headFails_forallb (p q : N -> bool) s :
  (forall c, q c = true -> p c = false) -> forallb q s = true -> headFails p s.
Proof.
  intros H. destruct s as [|c t]; [intros; exact I|]. simpl.
  intros [Hc _]%andb_true_iff. exact (H c Hc).
Qed.

Lemma forallb_rev (p : N -> bool) s : forallb p (rev s) = forallb p s.
Proof.
  induction s as [|c t IH]; [reflexivity|]. simpl.
  rewrite forallb_app, IH. simpl. rewrite andb_true_r. apply andb_comm.
Qed.

(** A string of slug characters without a double hyphen is its own slug. *)
Lemma slugifyTitle_fixed h s :
  forallb slugChar s = true -> noDoubleHyphen s = true -> slugifyTitle h s = s.
Proof.
  intros Hchars Hdouble. rewrite slugifyTitle_spec. unfold spec_slugify.
  rewrite (toLowerCase_ascii h)
    by (exact (forallb_impl _ _ _ slugChar_ascii Hchars)).
  rewrite (map_fixed _ _ _ slugChar_lower Hchars).
  rewrite trim_fixed;
    [| apply (headFails_forallb _ slugChar _ slugChar_not_space Hchars)
     | apply (headFails_forallb _ slugChar _ slugChar_not_space);
       rewrite forallb_rev; exact Hchars ].
  rewrite filter_fixed.
  2:{ eapply forallb_impl; [|exact Hchars]. intros c. unfold slugChar.
      destruct (isLowerLetter c), (isDigitChar c), (isWhiteSpace c), (isHyphen c);
        reflexivity || discriminate. }
  rewrite (collapseRuns_none isWhiteSpace).
  2:{ eapply forallb_impl; [|exact Hchars]. intros c Hc.
      rewrite (slugChar_not_space c Hc). reflexivity. }
  apply collapseRuns_single. exact Hdouble.
Qed.

Lemma slugifyTitle_idem h title :
  slugifyTitle h (slugifyTitle h title) = slugifyTitle h title.
Proof.
  apply slugifyTitle_fixed;
    [apply slugifyTitle_chars | apply slugifyTitle_noDoubleHyphen].
Qed.

(** When the lower-cased, trimmed title begins and ends with a letter or a
    digit, so does the slug. *)
Lemma startsWith_snoc (p : N -> bool) s :
  startsWith p (rev s) = true -> exists s' c, s = s' ++ [c] /\ p c = true.
Proof.
  destruct (rev s) as [|c r] eqn:E; [discriminate|]. simpl. intros Hc.
  exists (rev r), c. split; [|exact Hc].
  rewrite <- (rev_involutive s), E. reflexivity.
Qed.

Lemma spec_slugify_ends h title :
  startsWith alnum (trim (toLowerCase h title)) = true ->
  startsWith alnum (rev (trim (toLowerCase h title))) = true ->
  startsWith alnum (spec_slugify h title) = true /\
  startsWith alnum (rev (spec_slugify h title)) = true.
Proof.
  unfold spec_slugify.
  set (keep := fun c => isLowerLetter c || isDigitChar c || isWhiteSpace c || isHyphen c).
  assert (Hkeep : forall c, alnum c = true -> keep c = true).
  { intros c. unfold alnum, keep.
    destruct (isLowerLetter c), (isDigitChar c); reflexivity || discriminate. }
  assert (Hws : forall c, alnum c = true -> isWhiteSpace c = false).
  { intros c Hc. apply slugChar_not_space, alnum_slugChar, Hc. }
  generalize (trim (toLowerCase h title)). intros s Hfirst Hlast. split.
  - destruct s as [|c t]; [discriminate|]. simpl in Hfirst.
    cbn [List.filter]. rewrite (Hkeep c Hfirst).
    rewrite collapseRuns_cons, (Hws c Hfirst).
    rewrite collapseRuns_cons, (alnum_not_hyphen c Hfirst). exact Hfirst.
  - apply startsWith_snoc in Hlast as (s' & c & -> & Hc).
    rewrite (filter_snoc _ _ _ (Hkeep c Hc)).
    rewrite (collapseRuns_snoc _ _ _ (Hws c Hc)).
    rewrite (collapseRuns_snoc _ _ _ (alnum_not_hyphen c Hc)).
    rewrite rev_app_distr. exact Hc.
Qed.

Lemma slugifyTitle_urlSafe h title :
  startsWith alnum (trim (toLowerCase h title)) = true ->
  startsWith alnum (rev (trim (toLowerCase h title))) = true ->
  urlSafe (slugifyTitle h title) = true.
Proof.
  intros H1 H2.
  pose proof (slugifyTitle_chars h title) as Hc.
  pose proof (slugifyTitle_noDoubleHyphen h title) as Hd.
  rewrite slugifyTitle_spec in *.
  destruct (spec_slugify_ends h title H1 H2) as [Hf Hl].
  unfold urlSafe. rewrite Hc, Hd.
  assert (Hhy : forall s, startsWith alnum s = true -> startsWith isHyphen s = false).
  { intros [|c t]; [reflexivity|]. simpl. apply alnum_not_hyphen. }
  rewrite (Hhy _ Hf), (Hhy _ Hl).
  destruct (spec_slugify h title); [discriminate | reflexivity].
Qed.

Lemma slugify_ascii_input h s :
  forallb isAscii s = true ->
  slugifyTitle h s = slugifyTitle strictHost s.
Proof.
  intros H. unfold slugifyTitle. rewrite (toLowerCase_ascii h s H). reflexivity.
Qed.

Example slugify_hello h :
  slugifyTitle h (js "  Hello, World!! 2024  ") = js "hello-world-2024".
Proof. rewrite slugify_ascii_input by reflexivity. reflexivity. Qed.

Example slugify_punctuation h : slugifyTitle h (js "!!!") = [].
Proof. rewrite slugify_ascii_input by reflexivity. reflexivity. Qed.

(** ** The time normalizer *)

Lemma firstn_consumed (pre t : jsstring) :
  firstn (length (pre ++ t) - length t) (pre ++ t) = pre.
Proof.
  rewrite length_app, Nat.add_sub. induction pre as [|c pre IH]; simpl.
  - destruct t; reflexivity.
  - rewrite IH. reflexivity.
Qed.

Lemma rmatch_hours {A} s caps (k : jsstring -> captures -> option A) :
  rmatch re_hours s caps k =
  match s with
  | a :: b :: rest =>
      if fieldUpTo 23 a b then k rest ((1%nat, [a; b]) :: caps) else None
  | _ => None
  end.
Proof.
  unfold re_hours, fieldUpTo, twoDigits, isDigitChar.
  change (cu "0") with 48. change (cu "1") with 49. change (cu "2") with 50.
  change (cu "3") with 51.
  destruct s as [|a [|b rest]];
    cbn [rmatch cls_mem existsb citem_mem orb]; unfold inRange.
  - reflexivity.
  - repeat (try reflexivity; cmp_step).
  - pose proof (firstn_consumed [a; b] rest) as E. cbn [app] in E. rewrite !E.
    destruct (k rest ((1%nat, [a; b]) :: caps)); repeat (try reflexivity; cmp_step).
Qed.

Lemma rmatch_sixty {A} n s caps (k : jsstring -> captures -> option A) :
  rmatch (re_sixty n) s caps k =
  match s with
  | a :: b :: rest =>
      if fieldUpTo 59 a b then k rest ((n, [a; b]) :: caps) else None
  | _ => None
  end.
Proof.
  unfold re_sixty, fieldUpTo, twoDigits, isDigitChar.
  change (cu "0") with 48. change (cu "5") with 53.
  destruct s as [|a [|b rest]];
    cbn [rmatch cls_mem existsb citem_mem orb]; unfold inRange.
  - reflexivity.
  - repeat (try reflexivity; cmp_step).
  - pose proof (firstn_consumed [a; b] rest) as E. cbn [app] in E. rewrite !E.
    destruct (k rest ((n, [a; b]) :: caps)); repeat (try reflexivity; cmp_step).
Qed.

(** The pattern of [normalizeTime], group by group, against the reading of
    the specification. *)
Lemma time_matcher s :
  match exec_anchored re_time s with
  | None => Throw InvalidTimeFormat
  | Some m => Ok (interpolate (capture 1 m) ++ js ":" ++ interpolate (capture 2 m))
  end
  = match spec_time s with
    | Some hhmm => Ok hhmm
    | None => Throw InvalidTimeFormat
    end.
Proof.
  unfold exec_anchored, re_time, spec_time.
  change (cu ":") with 58. change (js ":") with [58].
  cbn [rmatch]. rewrite rmatch_hours.
  destruct s as [|h1 [|h2 s]]; try reflexivity.
  destruct (fieldUpTo 23 h1 h2);
    [|destruct s as [|c1 [|m1 [|m2 [|c2 [|s1 [|s2 [|x s]]]]]]]; reflexivity].
  destruct s as [|c1 s]; [reflexivity|].
  destruct (c1 =? 58);
    [|destruct s as [|m1 [|m2 [|c2 [|s1 [|s2 [|x s]]]]]]; reflexivity].
  rewrite rmatch_sixty.
  destruct s as [|m1 [|m2 s]]; try reflexivity.
  destruct (fieldUpTo 59 m1 m2);
    [|destruct s as [|c2 [|s1 [|s2 [|x s]]]]; reflexivity].
  destruct s as [|c2 s]; [reflexivity|].
  destruct (c2 =? 58); [|destruct s as [|s1 [|s2 [|x s]]]; reflexivity].
  rewrite rmatch_sixty.
  destruct s as [|s1 [|s2 s]]; try reflexivity.
  destruct (fieldUpTo 59 s1 s2); [|destruct s; reflexivity].
  destruct s; reflexivity.
Qed.

Lemma normalizeTime_refines time : normalizeTime time = spec_normalizeTime time.
Proof. unfold normalizeTime, spec_normalizeTime. apply time_matcher. Qed.

Lemma spec_time_canonical s r : spec_time s = Some r -> isCanonicalTime r = true.
Proof.
  unfold spec_time.
  destruct s as [|h1 [|h2 [|c1 [|m1 [|m2 [|c2 [|s1 [|s2 [|x rest]]]]]]]]];
    try discriminate.
  - destruct (fieldUpTo 23 h1 h2) eqn:H1, (c1 =? 58) eqn:H2,
      (fieldUpTo 59 m1 m2) eqn:H3; try discriminate.
    intros [= <-]. simpl. rewrite H1, H3. reflexivity.
  - destruct (fieldUpTo 23 h1 h2) eqn:H1, (c1 =? 58) eqn:H2,
      (fieldUpTo 59 m1 m2) eqn:H3, (c2 =? 58), (fieldUpTo 59 s1 s2);
      try discriminate.
    intros [= <-]. simpl. rewrite H1, H3. reflexivity.
Qed.

Lemma fieldUpTo_digits max a b :
  fieldUpTo max a b = true -> isDigitChar a = true /\ isDigitChar b = true.
Proof.
  unfold fieldUpTo, twoDigits.
  destruct (isDigitChar a), (isDigitChar b); simpl; try discriminate. auto.
Qed.

Lemma digit_not_space c : isDigitChar c = true -> isWhiteSpace c = false.
Proof.
  intros H. apply slugChar_not_space. unfold slugChar. rewrite H.
  apply orb_true_iff. left. apply orb_true_r.
Qed.

Lemma canonicalTime_fixed r :
  isCanonicalTime r = true -> trim r = r /\ spec_time r = Some r.
Proof.
  destruct r as [|h1 [|h2 [|c [|m1 [|m2 [|x rest]]]]]]; try discriminate.
  cbn [isCanonicalTime]. intros H.
  apply andb_true_iff in H as [H H3]. apply andb_true_iff in H as [H1 H2].
  apply N.eqb_eq in H2. subst c. split.
  - apply trim_fixed; simpl.
    + apply digit_not_space. apply (fieldUpTo_digits _ _ _ H1).
    + apply digit_not_space. apply (fieldUpTo_digits _ _ _ H3).
  - simpl. rewrite H1, H3. reflexivity.
Qed.

Lemma normalizeTime_canonical time r :
  normalizeTime time = Ok r -> isCanonicalTime r = true.
Proof.
  rewrite normalizeTime_refines. unfold spec_normalizeTime.
  destruct (spec_time (trim time)) eqn:E; [|discriminate].
  intros [= <-]. exact (spec_time_canonical _ _ E).
Qed.

Lemma normalizeTime_idem time r :
  normalizeTime time = Ok r -> normalizeTime r = Ok r.
Proof.
  intros H. apply normalizeTime_canonical, canonicalTime_fixed in H as [Ht Hs].
  rewrite normalizeTime_refines. unfold spec_normalizeTime. rewrite Ht, Hs.
  reflexivity.
Qed.

Lemma normalizeTime_throws time e :
  normalizeTime time = Throw e -> e = InvalidTimeFormat.
Proof.
  unfold normalizeTime. destruct (exec_anchored re_time (trim time)); congruence.
Qed.

(** ** Dates *)

Section Dates.
Local Open Scope Z_scope.

(** Linear arithmetic with floor division and remainder by constants. *)
Ltac div_lia := zify; Z.to_euclidean_division_equations; lia.

Lemma DaysInYear_cases y : DaysInYear y = 365 \/ DaysInYear y = 366.
Proof.
  unfold DaysInYear.
  destruct (y mod 4 =? 0), (y mod 100 =? 0), (y mod 400 =? 0); simpl; auto.
Qed.

Lemma DayFromYear_succ y : DayFromYear (y + 1) = DayFromYear y + DaysInYear y.
Proof.
  unfold DayFromYear, DaysInYear.
  destruct (Z.eqb_spec (y mod 4) 0), (Z.eqb_spec (y mod 100) 0),
    (Z.eqb_spec (y mod 400) 0); cbn [negb]; div_lia.
Qed.

Lemma DayFromYear_lt y1 y2 : y1 < y2 -> DayFromYear y1 < DayFromYear y2.
Proof. unfold DayFromYear. div_lia. Qed.

Lemma YearFromTime_bounds t :
  DayFromYear (YearFromTime t) <= Day t < DayFromYear (YearFromTime t + 1).
Proof.
  unfold YearFromTime. generalize (Day t). intros d.
  set (y := 1970 + 400 * d / 146097).
  assert (Hlo : DayFromYear (y - 1) <= d) by (unfold DayFromYear, y; div_lia).
  assert (Hhi : d < DayFromYear (y + 2)) by (unfold DayFromYear, y; div_lia).
  destruct (Z.ltb_spec d (DayFromYear y)).
  - replace (y - 1 + 1) with y by lia. lia.
  - destruct (Z.leb_spec (DayFromYear (y + 1)) d).
    + replace (y + 1 + 1) with (y + 2) by lia. lia.
    + lia.
Qed.

Lemma YearFromTime_unique t y :
  DayFromYear y <= Day t < DayFromYear (y + 1) -> YearFromTime t = y.
Proof.
  intros Hy. pose proof (YearFromTime_bounds t) as Hb.
  destruct (Z.lt_trichotomy (YearFromTime t) y) as [Hlt|[Heq|Hgt]]; [|exact Heq|].
  - assert (DayFromYear (YearFromTime t + 1) <= DayFromYear y).
    { destruct (Z.eq_dec (YearFromTime t + 1) y) as [->|]; [lia|].
      apply Z.lt_le_incl, DayFromYear_lt. lia. }
    lia.
  - assert (DayFromYear (y + 1) <= DayFromYear (YearFromTime t)).
    { destruct (Z.eq_dec (y + 1) (YearFromTime t)) as [->|]; [lia|].
      apply Z.lt_le_incl, DayFromYear_lt. lia. }
    lia.
Qed.

Lemma YearFromTime_Day t1 t2 : Day t1 = Day t2 -> YearFromTime t1 = YearFromTime t2.
Proof. unfold YearFromTime. intros ->. reflexivity. Qed.

Lemma DayWithinYear_bounds t :
  0 <= DayWithinYear t < DaysInYear (YearFromTime t).
Proof.
  unfold DayWithinYear. pose proof (YearFromTime_bounds t) as Hb.
  rewrite DayFromYear_succ in Hb. lia.
Qed.

Lemma InLeapYear_days t : DaysInYear (YearFromTime t) = 365 + InLeapYear t.
Proof.
  unfold InLeapYear. destruct (DaysInYear_cases (YearFromTime t)) as [E|E];
    rewrite E; reflexivity.
Qed.

Lemma InLeapYear_cases t : InLeapYear t = 0 \/ InLeapYear t = 1.
Proof. unfold InLeapYear. destruct (_ =? _); auto. Qed.

(** Month and day of the month locate the day within its year. *)
Lemma MonthFromTime_DateFromTime t :
  0 <= MonthFromTime t <= 11 /\
  1 <= DateFromTime t <= DaysInMonth (YearFromTime t) (MonthFromTime t) /\
  DayWithinYear t = daysBeforeMonth (MonthFromTime t) (InLeapYear t) + DateFromTime t - 1.
Proof.
  pose proof (DayWithinYear_bounds t) as Hd.
  rewrite InLeapYear_days in Hd.
  unfold DateFromTime, MonthFromTime, DaysInMonth.
  fold (InLeapYear t).
  set (d := DayWithinYear t) in *. set (l := InLeapYear t) in *.
  assert (Hl : l = 0 \/ l = 1) by apply InLeapYear_cases.
  repeat match goal with
  | |- context [if ?a <? ?b then _ else _] => destruct (Z.ltb_spec a b)
  end; cbn [daysBeforeMonth]; lia.
Qed.

Lemma DaysInMonth_le_31 y m : DaysInMonth y m <= 31.
Proof.
  unfold DaysInMonth. destruct (DaysInYear y =? 366);
    (destruct m as [|p|p]; [lia| |lia]);
    do 4 (try lia; destruct p as [p|p|]; try lia).
Qed.

Lemma MakeDay_inverse t :
  MakeDay (YearFromTime t) (MonthFromTime t) (DateFromTime t) = Day t.
Proof.
  destruct (MonthFromTime_DateFromTime t) as (Hm & Hd & Hw).
  unfold MakeDay.
  replace (MonthFromTime t / 12) with 0 by div_lia.
  replace (MonthFromTime t mod 12) with (MonthFromTime t) by div_lia.
  rewrite Z.add_0_r. fold (InLeapYear t). unfold DayWithinYear in Hw. lia.
Qed.

Lemma normalizeDate_dateString h s :
  normalizeDate h s =
  match newDate h s with
  | Some t => Ok (dateString t)
  | None => Throw InvalidDateFormat
  end.
Proof. reflexivity. Qed.

(** *** Decimal digits *)

Lemma decimal_step f n :
  decimal (S f) n =
  (if (n <? 10)%N then [] else decimal f (n / 10)%N) ++ [(48 + n mod 10)%N].
Proof. reflexivity. Qed.

(** More fuel than digits changes nothing. *)
Lemma decimal_enough : forall f1 f2 n,
  (0 < f1 <= f2)%nat -> (n < 10 ^ N.of_nat f1)%N ->
  decimal f2 n = decimal f1 n.
Proof.
  induction f1 as [|f1 IH]; intros f2 n Hf Hn; [lia|].
  destruct f2 as [|f2]; [lia|].
  rewrite !decimal_step.
  destruct (N.ltb_spec n 10); [reflexivity|].
  f_equal. apply IH.
  - destruct f1; [|lia]. simpl in Hn. lia.
  - rewrite Nat2N.inj_succ, N.pow_succ_r' in Hn.
    apply N.Div0.div_lt_upper_bound. exact Hn.
Qed.

Lemma log2_fuel n : (n < 10 ^ N.of_nat (S (N.to_nat (N.log2 n))))%N.
Proof.
  rewrite Nat2N.inj_succ, N2Nat.id.
  destruct (N.eq_dec n 0%N) as [->|Hn].
  - apply N.neq_0_lt_0, N.pow_nonzero. discriminate.
  - destruct (N.log2_spec n) as [_ Hlt]; [lia|].
    eapply N.lt_le_trans; [exact Hlt|].
    apply N.pow_le_mono_l. lia.
Qed.

(** [String(z)] with any sufficient number of digits. *)
Lemma numberToString_nonneg z k :
  0 <= z -> (0 < k)%nat -> (Z.to_N z < 10 ^ N.of_nat k)%N ->
  numberToString z = decimal k (Z.to_N z).
Proof.
  intros Hz Hk Hlt. unfold numberToString.
  destruct (Z.ltb_spec z 0); [lia|].
  rewrite Z.abs_eq by exact Hz.
  set (n := Z.to_N z) in *.
  destruct (Nat.le_ge_cases k (S (N.to_nat (N.log2 n)))).
  - apply decimal_enough; [lia | exact Hlt].
  - symmetry. apply decimal_enough; [lia | apply log2_fuel].
Qed.

Lemma digit_digitChar d : 0 <= d <= 9 -> digit (digitChar d) = Some d.
Proof.
  intros Hd. unfold digit, digitChar, inRange.
  destruct (N.leb_spec 48 (48 + Z.to_N d)); [|lia].
  destruct (N.leb_spec (48 + Z.to_N d) 57); [|lia].
  simpl. f_equal. lia.
Qed.

Lemma isDigitChar_digitChar d : 0 <= d <= 9 -> isDigitChar (digitChar d) = true.
Proof.
  intros Hd. unfold isDigitChar, digitChar, inRange.
  destruct (N.leb_spec 48 (48 + Z.to_N d)); [|lia].
  destruct (N.leb_spec (48 + Z.to_N d) 57); [|lia]. reflexivity.
Qed.

Lemma numberToString_four y :
  1000 <= y <= 9999 ->
  numberToString y =
  [digitChar (y / 1000); digitChar (y / 100 mod 10);
   digitChar (y / 10 mod 10); digitChar (y mod 10)].
Proof.
  intros Hy. rewrite (numberToString_nonneg y 4) by (simpl; lia).
  rewrite !decimal_step. simpl decimal.
  set (n := Z.to_N y).
  assert (Hn : (1000 <= n <= 9999)%N) by lia.
  destruct (N.ltb_spec n 10); [lia|].
  destruct (N.ltb_spec (n / 10) 10); [exfalso; div_lia|].
  destruct (N.ltb_spec (n / 10 / 10) 10); [exfalso; div_lia|].
  destruct (N.ltb_spec (n / 10 / 10 / 10) 10); [|exfalso; div_lia].
  cbn [app]. unfold digitChar, n.
  repeat f_equal; div_lia.
Qed.

Lemma pad2_digits m :
  0 <= m <= 99 ->
  padStart 2 (cu "0") (numberToString m) = [digitChar (m / 10); digitChar (m mod 10)].
Proof.
  intros Hm. unfold padStart. change (cu "0") with 48%N.
  destruct (Z.lt_ge_cases m 10).
  - rewrite (numberToString_nonneg m 1) by (simpl; lia).
    rewrite decimal_step. destruct (N.ltb_spec (Z.to_N m) 10); [|lia].
    cbn [app length Nat.sub repeat]. unfold digitChar.
    repeat f_equal; div_lia.
  - rewrite (numberToString_nonneg m 2) by (simpl; lia).
    rewrite !decimal_step. simpl decimal.
    destruct (N.ltb_spec (Z.to_N m) 10); [lia|].
    destruct (N.ltb_spec (Z.to_N m / 10) 10); [|exfalso; div_lia].
    cbn [app length Nat.sub repeat]. unfold digitChar.
    repeat f_equal; div_lia.
Qed.

(** *** Reading a canonical date back *)

Lemma readDigits_two a b acc rest :
  0 <= a <= 9 -> 0 <= b <= 9 ->
  readDigits 2 acc (digitChar a :: digitChar b :: rest)
  = Some (10 * (10 * acc + a) + b, rest).
Proof.
  intros Ha Hb. cbn [readDigits].
  rewrite (digit_digitChar a Ha). cbn [mbind option_bind].
  rewrite (digit_digitChar b Hb). reflexivity.
Qed.

Lemma readDigits_four a b c d rest :
  0 <= a <= 9 -> 0 <= b <= 9 -> 0 <= c <= 9 -> 0 <= d <= 9 ->
  readDigits 4 0 (digitChar a :: digitChar b :: digitChar c :: digitChar d :: rest)
  = Some (1000 * a + 100 * b + 10 * c + d, rest).
Proof.
  intros Ha Hb Hc Hd.
  change (readDigits 4 0 ?s) with
    (d1 ← digit (digitChar a);
     d2 ← digit (digitChar b);
     readDigits 2 (10 * (10 * 0 + d1) + d2) (digitChar c :: digitChar d :: rest)).
  rewrite (digit_digitChar a Ha), (digit_digitChar b Hb). cbn [mbind option_bind].
  rewrite readDigits_two by assumption. f_equal. f_equal. lia.
Qed.

Lemma digitChar_not_sign d : 0 <= d <= 9 ->
  (digitChar d =? cu "+")%N = false /\ (digitChar d =? cu "-")%N = false.
Proof.
  intros Hd. unfold digitChar. change (cu "+") with 43%N. change (cu "-") with 45%N.
  split; apply N.eqb_neq; lia.
Qed.

Lemma dateString_digits t :
  1000 <= getUTCFullYear t <= 9999 ->
  dateString t =
  [digitChar (getUTCFullYear t / 1000); digitChar (getUTCFullYear t / 100 mod 10);
   digitChar (getUTCFullYear t / 10 mod 10); digitChar (getUTCFullYear t mod 10);
   45%N;
   digitChar ((getUTCMonth t + 1) / 10); digitChar ((getUTCMonth t + 1) mod 10);
   45%N;
   digitChar (getUTCDate t / 10); digitChar (getUTCDate t mod 10)].
Proof.
  intros Hy. unfold dateString.
  destruct (MonthFromTime_DateFromTime t) as (Hm & Hd & _).
  pose proof (DaysInMonth_le_31 (YearFromTime t) (MonthFromTime t)).
  rewrite (numberToString_four _ Hy).
  rewrite (pad2_digits (getUTCMonth t + 1)) by (unfold getUTCMonth; lia).
  rewrite (pad2_digits (getUTCDate t)) by (unfold getUTCDate; lia).
  reflexivity.
Qed.

Lemma readDate_dateString t :
  1000 <= getUTCFullYear t <= 9999 ->
  readDate (dateString t)
  = Some (getUTCFullYear t, getUTCMonth t + 1, getUTCDate t, []).
Proof.
  intros Hy. rewrite (dateString_digits t Hy).
  destruct (MonthFromTime_DateFromTime t) as (Hm & Hd & _).
  pose proof (DaysInMonth_le_31 (YearFromTime t) (MonthFromTime t)) as H31.
  unfold getUTCMonth, getUTCDate in *.
  set (y := getUTCFullYear t) in *. set (m := MonthFromTime t + 1).
  set (d := DateFromTime t) in *.
  assert (Hm' : 1 <= m <= 12) by (unfold m; lia).
  unfold readDate, readYear.
  destruct (digitChar_not_sign (y / 1000)) as [-> ->]; [div_lia|].
  rewrite readDigits_four by div_lia. cbn [mbind option_bind expect].
  change (cu "-") with 45%N. rewrite N.eqb_refl.
  rewrite readDigits_two by div_lia. cbn [mbind option_bind expect].
  rewrite N.eqb_refl.
  rewrite readDigits_two by div_lia. cbn [mbind option_bind].
  assert (Hd' : 1 <= d <= 31) by lia.
  clearbody y m d. repeat f_equal; div_lia.
Qed.

Lemma Day_MakeDate d : Day (MakeDate d 0) = d.
Proof. unfold Day, MakeDate, msPerDay. div_lia. Qed.

Lemma dateString_Day t1 t2 : Day t1 = Day t2 -> dateString t1 = dateString t2.
Proof.
  intros H.
  assert (Hy : YearFromTime t1 = YearFromTime t2) by exact (YearFromTime_Day _ _ H).
  assert (Hw : DayWithinYear t1 = DayWithinYear t2)
    by (unfold DayWithinYear; rewrite H, Hy; reflexivity).
  assert (Hl : InLeapYear t1 = InLeapYear t2)
    by (unfold InLeapYear; rewrite Hy; reflexivity).
  assert (Hm : MonthFromTime t1 = MonthFromTime t2)
    by (unfold MonthFromTime; rewrite Hw, Hl; reflexivity).
  unfold dateString, getUTCFullYear, getUTCMonth, getUTCDate, DateFromTime.
  rewrite Hy, Hm, Hw, Hl. reflexivity.
Qed.

Lemma TimeClip_Some t t' : TimeClip t = Some t' -> t' = t /\ Z.abs t <= 8640000000000000.
Proof.
  unfold TimeClip. destruct (Z.leb_spec (Z.abs t) 8640000000000000); [|discriminate].
  intros [= <-]. auto.
Qed.

Lemma newDate_clipped h s t : newDate h s = Some t -> Z.abs t <= 8640000000000000.
Proof.
  unfold newDate. destruct (parseStandard s) as [t0|].
  - intros H. apply TimeClip_Some in H as [-> H]. exact H.
  - destruct (dateHeuristics h s) as [t0|]; [|discriminate]. cbn [mbind option_bind].
    intros H. apply TimeClip_Some in H as [-> H]. exact H.
Qed.

(** A date with a four-digit year, printed by [normalizeDate], is read back
    by the standard format as midnight UTC of the same day. *)
Lemma parseStandard_dateString t :
  1000 <= getUTCFullYear t <= 9999 ->
  parseStandard (dateString t) = Some (MakeDate (Day t) 0).
Proof.
  intros Hy. unfold parseStandard. rewrite (readDate_dateString t Hy).
  cbn [mbind option_bind].
  destruct (MonthFromTime_DateFromTime t) as (Hm & Hd & _).
  unfold getUTCFullYear, getUTCMonth, getUTCDate in *.
  replace (MonthFromTime t + 1 - 1) with (MonthFromTime t) by lia.
  destruct (Z.ltb_spec (MonthFromTime t + 1) 1); [lia|].
  destruct (Z.ltb_spec 12 (MonthFromTime t + 1)); [lia|].
  destruct (Z.ltb_spec (DateFromTime t) 1); [lia|].
  destruct (Z.ltb_spec (DaysInMonth (YearFromTime t) (MonthFromTime t)) (DateFromTime t));
    [lia|].
  cbn [orb]. rewrite MakeDay_inverse. reflexivity.
Qed.

Lemma isCanonicalDate_dateString t :
  1000 <= getUTCFullYear t <= 9999 -> isCanonicalDate (dateString t) = true.
Proof.
  intros Hy. rewrite (dateString_digits t Hy).
  destruct (MonthFromTime_DateFromTime t) as (Hm & Hd & _).
  pose proof (DaysInMonth_le_31 (YearFromTime t) (MonthFromTime t)) as H31.
  unfold getUTCMonth, getUTCDate in *.
  set (y := getUTCFullYear t) in *. set (m := MonthFromTime t + 1).
  set (d := DateFromTime t) in *.
  assert (Hm' : 1 <= m <= 12) by (unfold m; lia).
  unfold isCanonicalDate, fieldUpTo, twoDigits. cbn [forallb].
  rewrite !isDigitChar_digitChar by div_lia.
  rewrite !N.eqb_refl. cbn [andb].
  unfold digitChar.
  repeat match goal with
  | |- context [(?a <=? ?b)%N] => destruct (N.leb_spec a b); [|try (exfalso; div_lia)]
  end; cbn [andb negb]; try reflexivity; exfalso; div_lia.
Qed.

(** Idempotence of [normalizeDate] on results with a four-digit year. *)
Lemma normalizeDate_idem_four_digits h s t :
  newDate h s = Some t ->
  1000 <= getUTCFullYear t <= 9999 ->
  normalizeDate h s = Ok (dateString t) /\
  isCanonicalDate (dateString t) = true /\
  normalizeDate h (dateString t) = Ok (dateString t).
Proof.
  intros Hs Hy. rewrite !normalizeDate_dateString, Hs.
  split; [reflexivity|]. split; [exact (isCanonicalDate_dateString t Hy)|].
  unfold newDate. rewrite (parseStandard_dateString t Hy).
  apply newDate_clipped in Hs.
  assert (Hc : TimeClip (MakeDate (Day t) 0) = Some (MakeDate (Day t) 0)).
  { unfold TimeClip, MakeDate, Day, msPerDay.
    destruct (Z.leb_spec (Z.abs (t / 86400000 * 86400000 + 0)) 8640000000000000);
      [reflexivity | exfalso; div_lia]. }
  rewrite Hc. f_equal. apply dateString_Day. apply Day_MakeDate.
Qed.

Lemma normalizeDate_standard h s t :
  parseStandard s = Some t -> TimeClip t = Some t ->
  normalizeDate h s = Ok (dateString t).
Proof.
  intros Hp Hc. rewrite normalizeDate_dateString. unfold newDate.
  rewrite Hp, Hc. reflexivity.
Qed.

Lemma normalizeDate_heuristics h s :
  parseStandard s = None ->
  normalizeDate h s =
  match dateHeuristics h s ≫= TimeClip with
  | Some t => Ok (dateString t)
  | None => Throw InvalidDateFormat
  end.
Proof.
  intros Hp. rewrite normalizeDate_dateString. unfold newDate. rewrite Hp.
  reflexivity.
Qed.

Example normalizeDate_rollover h :
  normalizeDate h (js "2024-03-01T23:00:00-05:00") = Ok (js "2024-03-02").
Proof.
  rewrite (normalizeDate_standard h _ 1709352000000%Z) by (vm_compute; reflexivity).
  vm_compute. reflexivity.
Qed.

Example normalizeDate_garbage h :
  dateHeuristics h (js "not-a-date") = None ->
  normalizeDate h (js "not-a-date") = Throw InvalidDateFormat.
Proof.
  intros H. rewrite normalizeDate_heuristics by (vm_compute; reflexivity).
  rewrite H. reflexivity.
Qed.

Lemma normalizeDate_throws h s e :
  normalizeDate h s = Throw e -> e = InvalidDateFormat /\ newDate h s = None.
Proof.
  rewrite normalizeDate_dateString. destruct (newDate h s); [discriminate|].
  intros [= <-]. auto.
Qed.

Lemma normalizeDate_year_99 h :
  normalizeDate h (js "0099-01-01") = Ok (js "99-01-01").
Proof.
  rewrite (normalizeDate_standard h _ (-59042995200000)%Z) by (vm_compute; reflexivity).
  vm_compute. reflexivity.
Qed.

(** Each normalizer on its own output: the slug and the time always, the date
    when its year has four digits. *)
Lemma normalizers_idempotent h :
  (forall title, slugifyTitle h (slugifyTitle h title) = slugifyTitle h title) /\
  (forall time r, normalizeTime time = Ok r -> normalizeTime r = Ok r) /\
  (forall s t, newDate h s = Some t -> (1000 <= getUTCFullYear t <= 9999)%Z ->
     normalizeDate h s = Ok (dateString t) /\
     normalizeDate h (dateString t) = Ok (dateString t)).
Proof.
  split; [exact (slugifyTitle_idem h)|]. split; [exact normalizeTime_idem|].
  intros s t Hs Hy. destruct (normalizeDate_idem_four_digits h s t Hs Hy) as (H1 & _ & H2).
  split; assumption.
Qed.

End Dates.

(** ** The Event hook *)

Section EventHook.
Import EventModel EventSteps Samples.

Lemma mapM_agendaItem l :
  mapM agendaItem l =
  if blankItem l then Throw AgendaItemEmpty else Ok (List.map trim l).
Proof.
  induction l as [|x t IH]; [reflexivity|].
  cbn [mapM blankItem existsb List.map]. unfold agendaItem at 1.
  destruct (isEmpty (trim x)); [reflexivity|]. simpl.
  rewrite IH. fold (blankItem t). destruct (blankItem t); reflexivity.
Qed.

Lemma mapM_tagItem h l :
  mapM (tagItem h) l =
  if blankItem l then Throw TagItemEmpty
  else Ok (List.map (fun tag => toLowerCase h (trim tag)) l).
Proof.
  induction l as [|x t IH]; [reflexivity|].
  cbn [mapM blankItem existsb List.map]. unfold tagItem at 1.
  destruct (isEmpty (trim x)); [reflexivity|]. simpl.
  rewrite IH. fold (blankItem t). destruct (blankItem t); reflexivity.
Qed.

(** The hook runs its checks in [hookOrder]: it throws the error of the first
    one that fails, and stores the normalized document when none does. *)
Lemma preSave_hookOrder h this :
  match firstFailure (hookOrder h this) with
  | Some e => preSave h this = Throw e
  | None =>
      exists date' time',
        normalizeDate h (date this) = Ok date' /\
        normalizeTime (time this) = Ok time' /\
        preSave h this = Ok (saved h this date' time')
  end.
Proof.
  unfold hookOrder, presence, temporal, preSave.
  cbn [app firstFailure].
  repeat match goal with
  | |- context [throwIf ?b _] => destruct b; [reflexivity|]; cbn [throwIf bind]
  end.
  rewrite mapM_agendaItem, mapM_tagItem.
  destruct (blankItem (items (agenda this))); [reflexivity|].
  destruct (blankItem (items (tags this))); [reflexivity|]. cbn [bind].
  destruct (normalizeDate h (date this)) as [date'|e] eqn:Ed; cbn [throws bind].
  2:{ unfold normalizeDate in Ed. destruct (newDate h (date this)); congruence. }
  destruct (normalizeTime (time this)) as [time'|e] eqn:Et; cbn [throws bind].
  2:{ rewrite (normalizeTime_throws _ _ Et). reflexivity. }
  exists date', time'. repeat split.
Qed.

Lemma preSave_Ok_inv h this stored :
  preSave h this = Ok stored ->
  firstFailure (hookOrder h this) = None /\
  exists date' time',
    normalizeDate h (date this) = Ok date' /\
    normalizeTime (time this) = Ok time' /\
    stored = saved h this date' time'.
Proof.
  intros H. pose proof (preSave_hookOrder h this) as P.
  destruct (firstFailure (hookOrder h this)) as [e|].
  - congruence.
  - split; [reflexivity|]. destruct P as (d & t & Hd & Ht & Hs).
    exists d, t. repeat split; congruence.
Qed.

Lemma firstFailure_app l1 l2 :
  firstFailure (l1 ++ l2) =
  match firstFailure l1 with
  | Some e => Some e
  | None => firstFailure l2
  end.
Proof.
  induction l1 as [|[b e] t IH]; [reflexivity|]. simpl.
  destruct b; [reflexivity | exact IH].
Qed.

Lemma missing_false field :
  missing field = false -> exists s, field = Some s /\ trim s <> [].
Proof.
  destruct field as [s|]; [|discriminate]. simpl.
  destruct (trim s) eqn:E; [discriminate|]. intros _. exists s.
  split; [reflexivity | rewrite E; discriminate].
Qed.

Lemma hookOrder_presence h this :
  firstFailure (hookOrder h this) = None ->
  firstFailure (presence this) = None.
Proof.
  unfold hookOrder. rewrite firstFailure_app.
  destruct (firstFailure (presence this)); [discriminate | reflexivity].
Qed.

Lemma presence_title this :
  firstFailure (presence this) = None -> missing (title this) = false.
Proof.
  unfold presence. simpl. destruct (missing (title this)); [discriminate | reflexivity].
Qed.

(** What every accepted document satisfies. *)
Lemma Forall_map_trim (l : list jsstring) :
  blankItem l = false ->
  Forall (fun item => trim item = item /\ item <> []) (List.map trim l).
Proof.
  induction l as [|x t IH]; [constructor|]. simpl.
  intros [Hx Ht]%orb_false_iff. constructor; [|exact (IH Ht)].
  split; [apply trim_idem|]. destruct (trim x); [discriminate | discriminate].
Qed.

Lemma Forall_map_tag h (l : list jsstring) :
  blankItem l = false ->
  Forall (fun tag => trim tag <> [] /\ toLowerCase h tag = tag)
         (List.map (fun tag => toLowerCase h (trim tag)) l).
Proof.
  induction l as [|x t IH]; [constructor|]. simpl.
  intros [Hx Ht]%orb_false_iff. constructor; [|exact (IH Ht)].
  split; [|apply toLowerCase_idem].
  intros Hb. apply toLowerCase_blank in Hb. rewrite trim_idem in Hb.
  rewrite Hb in Hx. discriminate.
Qed.

Lemma hookOrder_None h this :
  firstFailure (hookOrder h this) = None ->
  Forall (fun field => missing field = false)
    [title this; description this; overview this; image this; venue this;
     location this; mode this; audience this; organizer this] /\
  noItems (agenda this) = false /\ noItems (tags this) = false /\
  blankItem (items (agenda this)) = false /\
  blankItem (items (tags this)) = false.
Proof.
  unfold hookOrder, presence. cbn [app firstFailure].
  repeat match goal with
  | |- context [if ?b then _ else _] => destruct b eqn:?; [discriminate|]
  end.
  intros _. repeat (constructor; try assumption).
Qed.

Lemma preSave_accepted h this stored :
  preSave h this = Ok stored ->
  Forall (fun field => missing field = false)
    [title stored; description stored; overview stored; image stored;
     venue stored; location stored; mode stored; audience stored;
     organizer stored] /\
  (exists a, agenda stored = Some a /\ a <> [] /\
             Forall (fun item => trim item = item /\ item <> []) a) /\
  (exists g, tags stored = Some g /\ g <> [] /\
             Forall (fun tag => trim tag <> [] /\ toLowerCase h tag = tag) g) /\
  normalizeDate h (date this) = Ok (date stored) /\
  isCanonicalTime (time stored) = true.
Proof.
  intros H. apply preSave_Ok_inv in H as (Hff & d & tm & Hd & Ht & ->).
  apply hookOrder_None in Hff as (Hp & Ha & Hg & Hab & Hgb).
  split; [exact Hp|]. cbn [agenda tags date time saved].
  split; [|split; [|split]].
  - eexists. split; [reflexivity|]. split; [|exact (Forall_map_trim _ Hab)].
    destruct (agenda this) as [[|x l]|]; discriminate.
  - eexists. split; [reflexivity|]. split; [|exact (Forall_map_tag h _ Hgb)].
    destruct (tags this) as [[|x l]|]; discriminate.
  - exact Hd.
  - exact (normalizeTime_canonical _ _ Ht).
Qed.

End EventHook.

(** ** The e-mail pattern *)

Lemma cls_mem_plain c :
  cls_mem (NoneOf [Space; Single (cu "@")]) c = plain c.
Proof.
  unfold plain. simpl. change (cu "@") with 64.
  rewrite orb_false_r. apply negb_orb.
Qed.

Lemma forallb_plain_count s :
  forallb plain s = true ->
  count_occ N.eq_dec s 64 = 0%nat /\
  forallb (fun c => negb (isWhiteSpace c)) s = true.
Proof.
  induction s as [|c t IH]; [split; reflexivity|]. simpl.
  intros [Hc Ht]%andb_true_iff. destruct (IH Ht) as [IH1 IH2].
  unfold plain in Hc. apply andb_true_iff in Hc as [Hw Ha].
  rewrite Hw, IH2. split; [|reflexivity].
  destruct (N.eq_dec c 64) as [->|_]; [discriminate | exact IH1].
Qed.

(** ** The claims about the Event hook *)

Section EventClaims.
Import EventModel EventSteps Samples.

(** C1 (as amended).  When the hook accepts a new document, or one whose
    title is modified, the slug it stores is the slug of the title, made of
    lower-case letters, digits and hyphens only and without two hyphens in a
    row; when the lower-cased, trimmed title begins and ends with a letter or
    a digit, the slug is moreover non-empty and has no hyphen at either
    end. *)
Theorem stored_slug_shape h this stored :
  isNew this || isModified this "title" = true ->
  preSave h this = Ok stored ->
  exists t s,
    title this = Some t /\ missing (Some t) = false /\
    slug stored = Some s /\ s = slugifyTitle h t /\
    forallb slugChar s = true /\ noDoubleHyphen s = true /\
    (startsWith alnum (trim (toLowerCase h t)) = true ->
     startsWith alnum (rev (trim (toLowerCase h t))) = true ->
     urlSafe s = true).
Proof.
  intros Hnew H. apply preSave_Ok_inv in H as (Hff & d & tm & _ & _ & ->).
  apply hookOrder_presence, presence_title in Hff.
  destruct (missing_false _ Hff) as (t & Ht & _).
  exists t, (slugifyTitle h t). rewrite Ht in Hff.
  repeat split; try assumption.
  - simpl. rewrite Hnew, Ht. reflexivity.
  - apply slugifyTitle_chars.
  - apply slugifyTitle_noDoubleHyphen.
  - apply slugifyTitle_urlSafe.
Qed.

Lemma stored_slug_shape_witness :
  exists stored,
    preSave strictHost reactSummit = Ok stored /\
    slug stored = Some (js "react-summit-2024") /\
    urlSafe (js "react-summit-2024") = true.
Proof.
  assert (H : preSave strictHost reactSummit
              = Ok (saved strictHost reactSummit (js "2024-03-01") (js "09:05")))
    by (vm_compute; reflexivity).
  eexists. split; [exact H|].
  destruct (stored_slug_shape strictHost reactSummit _ eq_refl H)
    as (t & s & Ht & _ & Hs & Hst & _ & _ & Hsafe).
  injection Ht as <-. subst s. split; [exact Hs|].
  apply Hsafe; reflexivity.
Defined.

(** C1, as stated, fails: a title of punctuation only passes validation and
    gets the empty slug, and a title with hyphens at its ends keeps them. *)
Lemma slug_not_url_safe :
  (missing (title punctuationTitle) = false /\
   exists stored,
     preSave strictHost punctuationTitle = Ok stored /\
     slug stored = Some [] /\ urlSafe [] = false) /\
  (missing (title hyphenTitle) = false /\
   exists stored,
     preSave strictHost hyphenTitle = Ok stored /\
     slug stored = Some (js "-a-") /\ urlSafe (js "-a-") = false).
Proof.
  split; (split; [reflexivity|]); eexists; (split; [vm_compute; reflexivity|]);
    split; reflexivity.
Qed.

(** C2 (as amended).  The hook runs its checks in this order: the nine
    presence checks, agenda non-empty, tags non-empty, agenda elements, tags
    elements, date, time; the error thrown is that of the first failing
    check, and the document is stored when none fails.  With the nine fields
    present, an empty agenda is a MissingField and, when tags is not empty,
    the agenda [["  "; "Keynote"]] is an EmptyListItem. *)
Theorem preSave_check_order h this :
  match firstFailure (hookOrder h this) with
  | Some e => preSave h this = Throw e
  | None => exists stored, preSave h this = Ok stored
  end /\
  (firstFailure (presence this) = None ->
   agenda this = Some [] ->
   exists e, preSave h this = Throw e /\ kindOf e = MissingField) /\
  (firstFailure (presence this) = None ->
   agenda this = Some [js "  "; js "Keynote"] ->
   noItems (tags this) = false ->
   exists e, preSave h this = Throw e /\ kindOf e = EmptyListItem).
Proof.
  pose proof (preSave_hookOrder h this) as P.
  split; [|split].
  - destruct (firstFailure (hookOrder h this)); [exact P|].
    destruct P as (d & t & _ & _ & ->). eauto.
  - intros Hp Ha. exists AgendaRequired. split; [|reflexivity].
    unfold hookOrder in P. rewrite firstFailure_app, Hp, Ha in P.
    exact P.
  - intros Hp Ha Ht. exists AgendaItemEmpty. split; [|reflexivity].
    unfold hookOrder in P. rewrite firstFailure_app, Hp, Ha in P.
    cbn [app firstFailure noItems] in P. rewrite Ht in P. exact P.
Qed.

Lemma preSave_check_order_witness :
  firstFailure (presence blankAgenda) = None /\
  exists e,
    preSave strictHost blankAgenda = Throw e /\ kindOf e = EmptyListItem.
Proof.
  split; [reflexivity|].
  apply (preSave_check_order strictHost blankAgenda); reflexivity.
Defined.

(** C2, as stated, fails: with a blank agenda element and an empty tags list
    the specification's order reports the agenda element, the hook reports
    the missing tags. *)
Lemma blank_agenda_after_empty_tags :
  firstFailure (specOrder strictHost blankAgendaNoTags) = Some AgendaItemEmpty /\
  preSave strictHost blankAgendaNoTags = Throw TagsRequired /\
  kindOf TagsRequired = MissingField.
Proof. repeat split. Qed.

(** C7.  A save that succeeds on an existing document whose title is not
    modified leaves the slug as it was, whatever the other fields hold; when
    the title is modified the stored slug is the slug of the new title. *)
Theorem preSave_slug_stable h this stored :
  preSave h this = Ok stored ->
  (isNew this = false -> isModified this "title" = false ->
   slug stored = slug this) /\
  (isModified this "title" = true ->
   exists t, title this = Some t /\ slug stored = Some (slugifyTitle h t)).
Proof.
  intros H. apply preSave_Ok_inv in H as (Hff & d & t & _ & _ & ->).
  split.
  - intros Hn Hm. simpl. rewrite Hn, Hm. reflexivity.
  - intros Hm.
    apply hookOrder_presence, presence_title, missing_false in Hff as (s & Hs & _).
    exists s. split; [exact Hs|]. simpl. rewrite Hm, orb_true_r, Hs. reflexivity.
Qed.

Lemma preSave_slug_stable_witness :
  (exists stored,
     preSave strictHost editedDescription = Ok stored /\
     slug stored = Some (js "old-slug")) /\
  (exists stored,
     preSave strictHost editedTitle = Ok stored /\
     slug editedTitle = Some (js "old-slug") /\
     slug stored = Some (js "vue-conf-2025")).
Proof.
  assert (H : preSave strictHost editedDescription
              = Ok (saved strictHost editedDescription (js "2025-01-01") (js "10:00")))
    by (vm_compute; reflexivity).
  assert (H' : preSave strictHost editedTitle
               = Ok (saved strictHost editedTitle (js "2025-01-01") (js "10:00")))
    by (vm_compute; reflexivity).
  split.
  - eexists. split; [exact H|].
    exact (proj1 (preSave_slug_stable _ _ _ H) eq_refl eq_refl).
  - eexists. split; [exact H'|]. split; [reflexivity|].
    destruct (proj2 (preSave_slug_stable _ _ _ H') eq_refl) as (t & Ht & Hs).
    injection Ht as <-. exact Hs.
Defined.

(** C8.  An event dated [0099-01-01] is accepted and stored with the date
    [99-01-01], which is not in the canonical form. *)
Theorem preSave_date_not_canonical h :
  exists stored,
    preSave h yearNinetyNine = Ok stored /\
    date stored = js "99-01-01" /\
    isCanonicalDate (date stored) = false.
Proof.
  pose proof (normalizeDate_year_99 h) as Hd.
  pose proof (preSave_hookOrder h yearNinetyNine) as P.
  assert (Hff : firstFailure (hookOrder h yearNinetyNine) = None).
  { unfold hookOrder, temporal.
    change (date yearNinetyNine) with (js "0099-01-01"). rewrite Hd.
    vm_compute. reflexivity. }
  rewrite Hff in P. destruct P as (d & t & Hd' & _ & ->).
  change (date yearNinetyNine) with (js "0099-01-01") in Hd'.
  rewrite Hd in Hd'. injection Hd' as <-.
  eexists. split; [reflexivity|]. split; reflexivity.
Qed.

End EventClaims.

(** ** The claims about the normalizers *)

(** C3.  [normalizeTime] succeeds exactly when the trimmed input is HH:MM or
    HH:MM:SS with hours up to 23 and minutes and seconds up to 59; it then
    returns the five characters HH:MM, and otherwise throws the invalid-time
    error, an InvalidFormat. *)
Theorem normalizeTime_correct time :
  normalizeTime time
  = match spec_time (trim time) with
    | Some hhmm => Ok hhmm
    | None => Throw InvalidTimeFormat
    end /\
  match spec_time (trim time) with
  | Some hhmm => isCanonicalTime hhmm = true /\ length hhmm = 5%nat
  | None => kindOf InvalidTimeFormat = InvalidFormat
  end /\
  normalizeTime (js "09:05:30") = Ok (js "09:05") /\
  normalizeTime (js "9:5") = Throw InvalidTimeFormat.
Proof.
  split; [exact (normalizeTime_refines time)|].
  split; [|split; reflexivity].
  destruct (spec_time (trim time)) as [hhmm|] eqn:E; [|reflexivity].
  pose proof (spec_time_canonical _ _ E) as Hc. split; [exact Hc|].
  destruct hhmm as [|h1 [|h2 [|c [|m1 [|m2 [|x rest]]]]]]; try discriminate.
  reflexivity.
Qed.

(** C4.  The year is printed as it is, without padding: the first of January
    of the year 99, a date in the standard format, comes out as
    [99-01-01], which is not of the form YYYY-MM-DD. *)
Theorem normalizeDate_year_not_padded h :
  normalizeDate h (js "0099-01-01") = Ok (js "99-01-01") /\
  isCanonicalDate (js "99-01-01") = false.
Proof. split; [apply normalizeDate_year_99 | reflexivity]. Qed.

(** C5.  The slug generator is the algorithm of the specification:
    lower-case, trim, drop every character that is not a lower-case letter,
    a digit, white space or a hyphen, turn each run of white space into one
    hyphen, then each run of hyphens into one hyphen. *)
Theorem slugifyTitle_algorithm h :
  (forall input, slugifyTitle h input = spec_slugify h input) /\
  slugifyTitle h (js "  Hello, World!! 2024  ") = js "hello-world-2024" /\
  slugifyTitle h (js "!!!") = [].
Proof.
  split; [exact (slugifyTitle_spec h)|].
  split; [apply slugify_hello | apply slugify_punctuation].
Qed.

(** C9.  The result [99-01-01] of [normalizeDate] on [0099-01-01] is
    outside the standard format: normalizing it again is left to the engine's
    own heuristics, and fails on an engine that has none. *)
Theorem normalizeDate_not_idempotent h :
  normalizeDate h (js "0099-01-01") = Ok (js "99-01-01") /\
  normalizeDate h (js "99-01-01")
  = match dateHeuristics h (js "99-01-01") ≫= TimeClip with
    | Some t => Ok (dateString t)
    | None => Throw InvalidDateFormat
    end /\
  normalizeDate strictHost (js "99-01-01") = Throw InvalidDateFormat.
Proof.
  split; [apply normalizeDate_year_99|].
  split; [|reflexivity].
  apply normalizeDate_heuristics. vm_compute. reflexivity.
Qed.

(** ** The claims about the Booking hook *)

Section BookingClaims.
Import BookingModel.

(** C6 (as amended).  The hook queries the Event collection exactly when the
    e-mail passes the presence and the format check and the booking is new or
    its eventId is modified; it then sends that one query, and throws the
    DanglingReference error when no event has the id.  A save of an existing
    booking whose eventId is not modified sends no query and ends the same
    way whether or not the event is still in the collection. *)
Theorem preSave_lookup events this :
  (fst (preSave events this) = [EventExists (eventId this)] <->
   missing (email this) = false /\
   isValidEmail (text (email this)) = true /\
   isNew this || isModified this "eventId" = true) /\
  (fst (preSave events this) = [EventExists (eventId this)] \/
   fst (preSave events this) = []) /\
  (fst (preSave events this) = [EventExists (eventId this)] ->
   events !! eventId this = None ->
   snd (preSave events this) = Throw EventNotFound /\
   kindOf EventNotFound = DanglingReference) /\
  (isNew this = false -> isModified this "eventId" = false ->
   fst (preSave events this) = [] /\
   preSave (delete (eventId this) events) this = preSave events this).
Proof.
  unfold preSave.
  destruct (missing (email this)) eqn:Em; cbn [negb fst snd].
  { split; [split; [discriminate | intros (F & _); discriminate]|].
    split; [right; reflexivity|]. split; [discriminate|].
    intros _ _. split; reflexivity. }
  destruct (isValidEmail (text (email this))) eqn:Ev; cbn [negb fst snd].
  2:{ split; [split; [discriminate | intros (_ & F & _); discriminate]|].
      split; [right; reflexivity|]. split; [discriminate|].
      intros _ _. split; reflexivity. }
  destruct (isNew this || isModified this "eventId") eqn:En; cbn [fst snd].
  - split; [split; [intros _; repeat split | reflexivity]|].
    split; [left; reflexivity|].
    split; [intros _ Hnone; rewrite Hnone; split; reflexivity|].
    intros Hn Hm. rewrite Hn, Hm in En. discriminate.
  - split; [split; [discriminate | intros (_ & _ & F); discriminate]|].
    split; [right; reflexivity|]. split; [discriminate|].
    intros _ _. split; reflexivity.
Qed.

Lemma preSave_lookup_witness :
  fst (preSave Samples.oneEvent Samples.editedEmail) = [] /\
  preSave (delete (eventId Samples.editedEmail) Samples.oneEvent)
    Samples.editedEmail
  = preSave Samples.oneEvent Samples.editedEmail.
Proof.
  destruct (preSave_lookup Samples.oneEvent Samples.editedEmail)
    as (_ & _ & _ & H).
  exact (H eq_refl eq_refl).
Defined.

(** C6, as stated, fails: a new booking without an e-mail address is turned
    down before the collection is queried. *)
Lemma new_booking_without_lookup :
  isNew (Samples.newBooking None) = true /\
  preSave Samples.oneEvent (Samples.newBooking None)
  = ([], Throw EmailRequired).
Proof. split; reflexivity. Qed.

Example new_booking_dangling :
  preSave ∅ (Samples.newBooking (Some (js "user@example.com")))
  = ([EventExists 7], Throw EventNotFound).
Proof. reflexivity. Qed.

Example new_booking_found :
  preSave Samples.oneEvent (Samples.newBooking (Some (js "user@example.com")))
  = ([EventExists 7], Ok (Samples.newBooking (Some (js "user@example.com")))).
Proof. reflexivity. Qed.

(** Conversely, every string of that shape is accepted. *)
Lemma isValidEmail_accepts email loc dom tld :
  trim email = loc ++ 64 :: dom ++ 46 :: tld ->
  loc <> [] -> dom <> [] -> tld <> [] ->
  forallb plain loc = true -> forallb plain dom = true ->
  forallb plain tld = true ->
  isValidEmail email = true.
Proof.
  intros Ht Hl Hd Hr Pl Pd Pr.
  assert (Hcls : forall s, forallb plain s = true ->
            forallb (cls_mem (NoneOf [Space; Single (cu "@")])) s = true).
  { intros s. apply forallb_impl. intros c. rewrite cls_mem_plain. trivial. }
  unfold isValidEmail, test_anchored, exec_anchored, emailRegex.
  cbn [rmatch]. rewrite Ht.
  match goal with
  | |- match ?m with _ => _ end = true =>
      assert (exists r, m = Some r) as [r ->]; [|reflexivity]
  end.
  apply plus_cls_complete; [exact Hl | exact (Hcls _ Pl) |].
  change (cu "@") with 64. rewrite N.eqb_refl.
  apply plus_cls_complete; [exact Hd | exact (Hcls _ Pd) |].
  change (cu ".") with 46. rewrite N.eqb_refl.
  rewrite <- (app_nil_r tld).
  apply plus_cls_complete; [exact Hr | exact (Hcls _ Pr) |].
  eexists. reflexivity.
Qed.

(** C10.  An accepted e-mail address, once trimmed, has the shape
    local [@] domain [.] rest, with the three parts non-empty and free of
    white space and [@]; so it has exactly one [@], no white space, and a
    dot after the [@] that is neither next to it nor last. *)
Theorem isValidEmail_shape email :
  isValidEmail email = true ->
  exists loc dom tld,
    trim email = loc ++ 64 :: dom ++ 46 :: tld /\
    loc <> [] /\ dom <> [] /\ tld <> [] /\
    forallb plain loc = true /\ forallb plain dom = true /\
    forallb plain tld = true /\
    count_occ N.eq_dec (trim email) 64 = 1%nat /\
    forallb (fun c => negb (isWhiteSpace c)) (trim email) = true.
Proof.
  unfold isValidEmail, test_anchored, exec_anchored, emailRegex.
  cbn [rmatch]. change (cu "@") with 64. change (cu ".") with 46.
  generalize (trim email). intros s H.
  match type of H with
  | match ?m with _ => _ end = true => destruct m as [caps|] eqn:M; [|discriminate]
  end.
  apply plus_cls_sound in M as (loc & r1 & -> & Hloc & Ploc & M).
  destruct r1 as [|a r1]; [discriminate|].
  destruct (a =? 64) eqn:Ea; [|discriminate]. apply N.eqb_eq in Ea. subst a.
  apply plus_cls_sound in M as (dom & r2 & -> & Hdom & Pdom & M).
  destruct r2 as [|d r2]; [discriminate|].
  destruct (d =? 46) eqn:Ed; [|discriminate]. apply N.eqb_eq in Ed. subst d.
  apply plus_cls_sound in M as (tld & r3 & -> & Htld & Ptld & M).
  destruct r3; [|discriminate].
  rewrite app_nil_r.
  apply (forallb_impl _ plain) in Ploc, Pdom, Ptld;
    try (intros c; rewrite cls_mem_plain; trivial).
  exists loc, dom, tld. repeat split; try assumption.
  - destruct (forallb_plain_count _ Ploc) as [C1 _].
    destruct (forallb_plain_count _ Pdom) as [C2 _].
    destruct (forallb_plain_count _ Ptld) as [C3 _].
    rewrite count_occ_app. cbn [count_occ].
    destruct (N.eq_dec 64 64); [|congruence].
    rewrite count_occ_app. cbn [count_occ].
    destruct (N.eq_dec 46 64); [discriminate|]. lia.
  - destruct (forallb_plain_count _ Ploc) as [_ W1].
    destruct (forallb_plain_count _ Pdom) as [_ W2].
    destruct (forallb_plain_count _ Ptld) as [_ W3].
    rewrite forallb_app. cbn [forallb]. rewrite forallb_app. cbn [forallb].
    rewrite W1, W2, W3. reflexivity.
Qed.

Lemma isValidEmail_shape_witness :
  isValidEmail (js "  user@example.com ") = true /\
  count_occ N.eq_dec (trim (js "  user@example.com ")) 64 = 1%nat.
Proof.
  split; [reflexivity|].
  destruct (isValidEmail_shape (js "  user@example.com ") eq_refl)
    as (_ & _ & _ & _ & _ & _ & _ & _ & _ & _ & H & _).
  exact H.
Defined.

End BookingClaims.

(** * Further properties *)

(** ** The slug generator *)

(** X1.  The slug generator is idempotent, and the slugs are exactly the
    strings of lower-case letters, digits and hyphens without two hyphens in
    a row: each such string is the slug of itself. *)
Theorem slug_image h :
  (forall title, slugifyTitle h (slugifyTitle h title) = slugifyTitle h title) /\
  (forall s, (exists title, slugifyTitle h title = s) <->
             forallb slugChar s = true /\ noDoubleHyphen s = true).
Proof.
  split; [exact (slugifyTitle_idem h)|].
  intros s. split.
  - intros [title <-]. split;
      [apply slugifyTitle_chars | apply slugifyTitle_noDoubleHyphen].
  - intros [Hc Hd]. exists s. apply slugifyTitle_fixed; assumption.
Qed.

Lemma collapseRuns_nil p s : collapseRuns p s = [] <-> s = [].
Proof.
  split; [|intros ->; reflexivity].
  induction s as [|c t IH]; [reflexivity|].
  rewrite collapseRuns_cons.
  destruct (p c); [|discriminate].
  destruct (startsWith p t) eqn:S; [|discriminate].
  intros H. apply IH in H. subst t. discriminate.
Qed.

Lemma filter_nil_forallb (p : N -> bool) s :
  List.filter p s = [] <-> forallb (fun c => negb (p c)) s = true.
Proof.
  induction s as [|c t IH]; [split; reflexivity|]. simpl.
  destruct (p c); simpl; [split; discriminate | exact IH].
Qed.

(** X2.  The slug is empty exactly when the lower-cased, trimmed title
    holds no letter, digit, white space or hyphen. *)
Theorem slug_empty_iff h title :
  slugifyTitle h title = [] <->
  forallb (fun c => negb (isLowerLetter c || isDigitChar c
                          || isWhiteSpace c || isHyphen c))
          (trim (toLowerCase h title)) = true.
Proof.
  rewrite slugifyTitle_spec. unfold spec_slugify.
  rewrite !collapseRuns_nil. apply filter_nil_forallb.
Qed.

(** X3.  Two titles of Basic Latin characters that differ only in the case
    of their letters and in the white space around them get the same
    slug. *)
Theorem slug_ignores_case_and_padding h a b :
  forallb isAscii a = true -> forallb isAscii b = true ->
  List.map asciiLower (trim a) = List.map asciiLower (trim b) ->
  slugifyTitle h a = slugifyTitle h b.
Proof.
  intros Ha Hb H. unfold slugifyTitle.
  rewrite (toLowerCase_ascii h a Ha), (toLowerCase_ascii h b Hb).
  rewrite !(trim_map _ _ isWhiteSpace_asciiLower), H. reflexivity.
Qed.

Lemma slug_ignores_case_and_padding_witness :
  slugifyTitle strictHost (js "  React Summit ") = slugifyTitle strictHost (js "REACT summit").
Proof.
  apply (slug_ignores_case_and_padding strictHost); reflexivity.
Defined.

(** Letters and digits pass through every stage. *)
Lemma filter_dropWhile (q p : N -> bool) s :
  (forall c, p c = true -> q c = false) ->
  List.filter q (dropWhile p s) = List.filter q s.
Proof.
  intros H. induction s as [|c t IH]; [reflexivity|]. simpl.
  destruct (p c) eqn:E; [|reflexivity]. rewrite (H c E). exact IH.
Qed.

Lemma filter_rev (q : N -> bool) s : List.filter q (rev s) = rev (List.filter q s).
Proof.
  induction s as [|c t IH]; [reflexivity|]. simpl.
  rewrite List.filter_app, IH. simpl. destruct (q c); simpl;
    [reflexivity | apply app_nil_r].
Qed.

Lemma filter_trim (q : N -> bool) s :
  (forall c, isWhiteSpace c = true -> q c = false) ->
  List.filter q (trim s) = List.filter q s.
Proof.
  intros H. unfold trim, trimEnd, trimStart.
  rewrite filter_rev, (filter_dropWhile _ _ _ H), filter_rev, rev_involutive.
  apply (filter_dropWhile _ _ _ H).
Qed.

Lemma filter_filter_sub (q p : N -> bool) s :
  (forall c, q c = true -> p c = true) ->
  List.filter q (List.filter p s) = List.filter q s.
Proof.
  intros H. induction s as [|c t IH]; [reflexivity|]. simpl.
  destruct (p c) eqn:E; simpl; rewrite IH; [reflexivity|].
  destruct (q c) eqn:Q; [|reflexivity]. rewrite (H c Q) in E. discriminate.
Qed.

Lemma filter_collapseRuns (q p : N -> bool) s :
  q 45 = false -> (forall c, p c = true -> q c = false) ->
  List.filter q (collapseRuns p s) = List.filter q s.
Proof.
  intros H45 H. induction s as [|c t IH]; [reflexivity|].
  rewrite collapseRuns_cons. cbn [List.filter].
  destruct (p c) eqn:E.
  - rewrite (H c E). destruct (startsWith p t); [exact IH|].
    cbn [List.filter]. rewrite H45. exact IH.
  - cbn [List.filter]. rewrite IH. reflexivity.
Qed.

Lemma alnum_not_space c : isWhiteSpace c = true -> alnum c = false.
Proof.
  intros H. destruct (alnum c) eqn:A; [|reflexivity].
  apply alnum_slugChar, slugChar_not_space in A. congruence.
Qed.

(** X4.  The letters and digits of the slug are those of the lower-cased
    title, in the same order: the generator drops and merges separators
    only. *)
Theorem slug_keeps_letters_and_digits h title :
  List.filter alnum (slugifyTitle h title)
  = List.filter alnum (toLowerCase h title).
Proof.
  rewrite slugifyTitle_spec. unfold spec_slugify.
  rewrite filter_collapseRuns;
    [|reflexivity | intros c Hc; destruct (alnum c) eqn:A; [|reflexivity];
                    rewrite (alnum_not_hyphen c A) in Hc; discriminate].
  rewrite filter_collapseRuns; [|reflexivity | exact alnum_not_space].
  rewrite filter_filter_sub.
  2:{ intros c. unfold alnum.
      destruct (isLowerLetter c), (isDigitChar c); simpl; trivial; discriminate. }
  apply filter_trim. exact alnum_not_space.
Qed.

Lemma isWordChar_ascii c : isWordChar c = true -> isAscii c = true.
Proof. unfold isWordChar, isAscii, inRange. cmp_solve. Qed.

Lemma isWordChar_lower c : isWordChar c = true -> alnum (asciiLower c) = true.
Proof.
  unfold isWordChar, alnum, isLowerLetter, isDigitChar, asciiLower, inRange.
  intros H. destruct (N.leb_spec 65 c); destruct (N.leb_spec c 90); simpl in *;
    cmp_solve.
Qed.

Lemma joinWith_cons sep w rest :
  rest <> [] -> joinWith sep (w :: rest) = w ++ sep :: joinWith sep rest.
Proof. destruct rest; [congruence | reflexivity]. Qed.

Lemma joinWith_map sep (f : N -> N) words :
  List.map f (joinWith sep words)
  = joinWith (f sep) (List.map (List.map f) words).
Proof.
  induction words as [|w rest IH]; [reflexivity|].
  destruct rest as [|w2 rest]; [reflexivity|].
  rewrite (joinWith_cons sep w (w2 :: rest)) by easy.
  change (List.map (List.map f) (w :: w2 :: rest))
    with (List.map f w :: List.map (List.map f) (w2 :: rest)).
  rewrite (joinWith_cons (f sep) (List.map f w)) by easy.
  rewrite List.map_app, List.map_cons, IH. reflexivity.
Qed.

Lemma joinWith_forallb (q : N -> bool) sep words :
  q sep = true -> forallb (forallb q) words = true ->
  forallb q (joinWith sep words) = true.
Proof.
  intros Hs. induction words as [|w rest IH]; [reflexivity|].
  cbn [forallb]. intros [Hw Hr]%andb_true_iff.
  destruct rest as [|w2 rest]; [exact Hw|].
  rewrite joinWith_cons by easy.
  rewrite forallb_app. cbn [forallb]. rewrite Hw, Hs, (IH Hr). reflexivity.
Qed.

Lemma startsWith_join (q : N -> bool) sep words :
  words <> [] -> forallb isSlugWord words = true ->
  (forall c, alnum c = true -> q c = false) ->
  startsWith q (joinWith sep words) = false.
Proof.
  intros Hne Hw Hq. destruct words as [|w rest]; [congruence|].
  cbn [forallb] in Hw. apply andb_true_iff in Hw as [Hw _].
  unfold isSlugWord in Hw. apply andb_true_iff in Hw as [Hn Ha].
  destruct w as [|c w]; [discriminate|]. cbn [forallb] in Ha.
  apply andb_true_iff in Ha as [Hc _].
  destruct rest; simpl; exact (Hq c Hc).
Qed.

Lemma collapseRuns_app_none p w t :
  forallb (fun c => negb (p c)) w = true ->
  collapseRuns p (w ++ t) = w ++ collapseRuns p t.
Proof.
  induction w as [|c w IH]; [reflexivity|]. cbn [forallb].
  intros [Hc Hw]%andb_true_iff. apply negb_true_iff in Hc.
  change ((c :: w) ++ t) with (c :: (w ++ t)).
  rewrite collapseRuns_cons, Hc, (IH Hw). reflexivity.
Qed.

Lemma collapse_join p sep words :
  p sep = true -> (forall c, alnum c = true -> p c = false) ->
  forallb isSlugWord words = true ->
  collapseRuns p (joinWith sep words) = joinWith 45 words.
Proof.
  intros Hs Hp. induction words as [|w rest IH]; [reflexivity|].
  cbn [forallb]. intros [Hw Hr]%andb_true_iff.
  assert (Hnone : forallb (fun c => negb (p c)) w = true).
  { unfold isSlugWord in Hw. apply andb_true_iff in Hw as [_ Ha].
    eapply forallb_impl; [|exact Ha]. intros c Hc. rewrite (Hp c Hc). reflexivity. }
  destruct rest as [|w2 rest].
  - simpl. apply collapseRuns_none. exact Hnone.
  - rewrite !joinWith_cons by easy.
    rewrite (collapseRuns_app_none _ _ _ Hnone), collapseRuns_cons, Hs.
    rewrite (startsWith_join p sep (w2 :: rest)); [|easy|exact Hr|exact Hp].
    rewrite (IH Hr). reflexivity.
Qed.

Lemma join_fixed_hyphen words :
  forallb isSlugWord words = true ->
  collapseRuns isHyphen (joinWith 45 words) = joinWith 45 words.
Proof.
  intros H. apply (collapse_join isHyphen 45 words); [reflexivity| |exact H].
  exact alnum_not_hyphen.
Qed.

Lemma map_lower_word w : isWord w = true -> isSlugWord (List.map asciiLower w) = true.
Proof.
  unfold isWord, isSlugWord. intros [Hn Hw]%andb_true_iff.
  apply andb_true_iff. split; [destruct w; [discriminate | reflexivity]|].
  rewrite forallb_forall in *. intros c Hc. apply in_map_iff in Hc as (x & <- & Hx).
  apply isWordChar_lower, Hw, Hx.
Qed.

Lemma join_nonempty sep words :
  words <> [] -> forallb isSlugWord words = true -> joinWith sep words <> [].
Proof.
  destruct words as [|w rest]; [congruence|]. intros _. cbn [forallb].
  intros [[Hn _]%andb_true_iff _]%andb_true_iff.
  destruct w; [discriminate|]. destruct rest; discriminate.
Qed.

Lemma join_last p sep words :
  (forall c, alnum c = true -> p c = false) ->
  forallb isSlugWord words = true ->
  headFails p (rev (joinWith sep words)).
Proof.
  intros Hp. induction words as [|w rest IH]; [intros; exact I|].
  cbn [forallb]. intros [Hw Hr]%andb_true_iff.
  destruct rest as [|w2 rest].
  - simpl. unfold isSlugWord in Hw. apply andb_true_iff in Hw as [_ Ha].
    apply (headFails_forallb _ alnum); [exact Hp|]. rewrite forallb_rev. exact Ha.
  - rewrite (joinWith_cons sep w (w2 :: rest)) by easy.
    rewrite rev_app_distr. cbn [rev]. rewrite <- !app_assoc.
    assert (Hne : rev (joinWith sep (w2 :: rest)) <> []).
    { intros E. apply (f_equal (@rev N)) in E. rewrite rev_involutive in E.
      revert E. apply join_nonempty; [easy | exact Hr]. }
    specialize (IH Hr).
    destruct (rev (joinWith sep (w2 :: rest))); [congruence | exact IH].
Qed.

Lemma forallb_words (q r : N -> bool) (words : list jsstring) :
  (forall c, q c = true -> r c = true) ->
  forallb (fun w => negb (isEmpty w) && forallb q w) words = true ->
  forallb (forallb r) words = true.
Proof.
  intros H. induction words as [|w rest IH]; [reflexivity|]. cbn [forallb].
  intros [[_ Hw]%andb_true_iff Hr]%andb_true_iff.
  rewrite (forallb_impl _ _ _ H Hw), (IH Hr). reflexivity.
Qed.

Lemma forallb_map_words (words : list jsstring) :
  forallb isWord words = true ->
  forallb isSlugWord (List.map (List.map asciiLower) words) = true.
Proof.
  induction words as [|w rest IH]; [reflexivity|]. cbn [forallb List.map].
  intros [Hw Hr]%andb_true_iff. rewrite (map_lower_word w Hw), (IH Hr). reflexivity.
Qed.

(** X5.  For a title made of words of Basic Latin letters and digits
    separated by single spaces, the slug is the lower-cased words joined by
    hyphens. *)
Theorem slug_of_words h words :
  forallb isWord words = true ->
  slugifyTitle h (joinWith 32 words)
  = joinWith 45 (List.map (List.map asciiLower) words).
Proof.
  intros Hw.
  assert (Hascii : forallb isAscii (joinWith 32 words) = true).
  { apply joinWith_forallb; [reflexivity|].
    exact (forallb_words isWordChar isAscii words isWordChar_ascii Hw). }
  pose proof (forallb_map_words words Hw) as Hs.
  set (lowered := List.map (List.map asciiLower) words) in *.
  rewrite slugifyTitle_spec. unfold spec_slugify.
  rewrite (toLowerCase_ascii h _ Hascii), joinWith_map.
  change (asciiLower 32) with 32. fold lowered.
  assert (Hchars : forallb (fun c => alnum c || (c =? 32)) (joinWith 32 lowered) = true).
  { apply joinWith_forallb; [reflexivity|].
    apply (forallb_words alnum _ lowered); [intros c ->; reflexivity | exact Hs]. }
  rewrite trim_fixed.
  - rewrite filter_fixed.
    + rewrite (collapse_join isWhiteSpace 32 lowered);
        [|reflexivity | intros c Hc; destruct (isWhiteSpace c) eqn:W;
                        [rewrite (alnum_not_space c W) in Hc; discriminate | reflexivity]
         | exact Hs].
      apply join_fixed_hyphen. exact Hs.
    + eapply forallb_impl; [|exact Hchars]. intros c. unfold alnum.
      destruct (N.eqb_spec c 32) as [->|_]; [reflexivity|].
      rewrite orb_false_r. intros ->. reflexivity.
  - destruct lowered as [|w rest] eqn:E; [exact I|].
    pose proof (startsWith_join isWhiteSpace 32 (w :: rest)) as S.
    unfold headFails. destruct (joinWith 32 (w :: rest)); [exact I|].
    apply S; [easy | exact Hs |].
    intros c Hc. destruct (isWhiteSpace c) eqn:W; [|reflexivity].
    rewrite (alnum_not_space c W) in Hc. discriminate.
  - apply join_last; [|exact Hs].
    intros c Hc. destruct (isWhiteSpace c) eqn:W; [|reflexivity].
    rewrite (alnum_not_space c W) in Hc. discriminate.
Qed.

Lemma slug_of_words_witness :
  slugifyTitle strictHost (joinWith 32 [js "React"; js "Summit"; js "2024"])
  = js "react-summit-2024".
Proof.
  apply (slug_of_words strictHost [js "React"; js "Summit"; js "2024"]).
  reflexivity.
Defined.

(** ** The time and date normalizers *)

(** X6.  The strings [normalizeTime] returns unchanged are exactly the
    canonical HH:MM strings. *)
Theorem normalizeTime_fixed_points r :
  normalizeTime r = Ok r <-> isCanonicalTime r = true.
Proof.
  split.
  - apply normalizeTime_canonical.
  - intros H. apply canonicalTime_fixed in H as [Ht Hs].
    rewrite normalizeTime_refines. unfold spec_normalizeTime.
    rewrite Ht, Hs. reflexivity.
Qed.

(** X7.  [normalizeTime] is idempotent: what it returns, it returns
    again. *)
Theorem normalizeTime_idempotent time out :
  normalizeTime time = Ok out -> normalizeTime out = Ok out.
Proof. apply normalizeTime_idem. Qed.

Lemma normalizeTime_idempotent_witness :
  normalizeTime (js " 23:59:07 ") = Ok (js "23:59") /\
  normalizeTime (js "23:59") = Ok (js "23:59").
Proof.
  split; [reflexivity|].
  apply (normalizeTime_idempotent (js " 23:59:07 ")). reflexivity.
Defined.

Section DateExtras.
Local Open Scope Z_scope.

Ltac div_lia := zify; Z.to_euclidean_division_equations; lia.

Lemma leap_flag y : (if DaysInYear y =? 366 then 1 else 0) = DaysInYear y - 365.
Proof. destruct (DaysInYear_cases y) as [E|E]; rewrite E; reflexivity. Qed.

Lemma month_cases m : 0 <= m <= 11 ->
  m = 0 \/ m = 1 \/ m = 2 \/ m = 3 \/ m = 4 \/ m = 5 \/ m = 6 \/ m = 7 \/
  m = 8 \/ m = 9 \/ m = 10 \/ m = 11.
Proof. lia. Qed.

(** The accessors undo [MakeDay]. *)
Lemma civil_of_MakeDay y m d ms :
  0 <= m <= 11 -> 1 <= d <= DaysInMonth y m -> 0 <= ms < msPerDay ->
  let t := MakeDate (MakeDay y m d) ms in
  YearFromTime t = y /\ MonthFromTime t = m /\ DateFromTime t = d.
Proof.
  intros Hm Hd Hms t.
  assert (HD : Day t = MakeDay y m d).
  { unfold t, Day, MakeDate, msPerDay in *. div_lia. }
  assert (HM : MakeDay y m d
               = DayFromYear y + daysBeforeMonth m (DaysInYear y - 365) + d - 1).
  { unfold MakeDay. replace (m / 12) with 0 by div_lia.
    replace (m mod 12) with m by div_lia. rewrite Z.add_0_r, leap_flag. reflexivity. }
  assert (Hl : DaysInYear y - 365 = 0 \/ DaysInYear y - 365 = 1)
    by (destruct (DaysInYear_cases y); lia).
  assert (Hin : 0 <= daysBeforeMonth m (DaysInYear y - 365) + d - 1 < DaysInYear y).
  { unfold DaysInMonth in Hd. rewrite leap_flag in Hd.
    destruct (month_cases m Hm) as [E|[E|[E|[E|[E|[E|[E|[E|[E|[E|[E|E]]]]]]]]]]];
      subst m; cbn [daysBeforeMonth] in *; lia. }
  assert (HY : YearFromTime t = y).
  { apply YearFromTime_unique. rewrite HD, HM, DayFromYear_succ. lia. }
  assert (HW : DayWithinYear t = daysBeforeMonth m (DaysInYear y - 365) + d - 1).
  { unfold DayWithinYear. rewrite HY, HD, HM. lia. }
  assert (HL : InLeapYear t = DaysInYear y - 365).
  { unfold InLeapYear. rewrite HY. apply leap_flag. }
  split; [exact HY|].
  unfold DateFromTime, MonthFromTime. rewrite HW, HL.
  unfold DaysInMonth in Hd. rewrite leap_flag in Hd.
  set (l := DaysInYear y - 365) in *. clearbody l.
  destruct (month_cases m Hm) as [E|[E|[E|[E|[E|[E|[E|[E|[E|[E|[E|E]]]]]]]]]]];
    subst m; cbn [daysBeforeMonth] in *;
    repeat match goal with
      | |- context [if ?a <? ?b then _ else _] =>
          destruct (Z.ltb_spec a b); try lia
      end; split; lia.
Qed.

Lemma digit_range_10 n : 0 <= n <= 99 -> 0 <= n / 10 <= 9 /\ 0 <= n mod 10 <= 9.
Proof. intros H. div_lia. Qed.

Lemma readDigits_pad2 n acc rest :
  0 <= n <= 99 ->
  readDigits 2 acc (pad2 n ++ rest) = Some (100 * acc + n, rest).
Proof.
  intros Hn. destruct (digit_range_10 n Hn) as [H1 H2].
  unfold pad2. cbn [app]. rewrite readDigits_two by assumption.
  f_equal. f_equal. div_lia.
Qed.

Lemma readYear_year4 y rest :
  0 <= y <= 9999 -> readYear (year4 y ++ rest) = Some (y, rest).
Proof.
  intros Hy. unfold readYear, year4. cbn [app].
  destruct (digitChar_not_sign (y / 1000)) as [-> ->]; [div_lia|].
  rewrite readDigits_four by div_lia. f_equal. f_equal. div_lia.
Qed.

Lemma readDate_civilString y m d rest :
  0 <= y <= 9999 -> 0 <= m <= 99 -> 0 <= d <= 99 ->
  readDate (civilString y m d ++ rest) = Some (y, m, d, rest).
Proof.
  intros Hy Hm Hd. unfold readDate, civilString.
  rewrite <- app_assoc, (readYear_year4 y _ Hy). cbn [mbind option_bind].
  cbn [app expect]. change (cu "-") with 45%N. rewrite N.eqb_refl.
  rewrite <- app_assoc, (readDigits_pad2 m 0 _ Hm). cbn [mbind option_bind].
  cbn [app expect]. rewrite N.eqb_refl.
  rewrite (readDigits_pad2 d 0 _ Hd). cbn [mbind option_bind app].
  reflexivity.
Qed.

Lemma validCivil_spec y m d :
  validCivil y m d = true ->
  1000 <= y <= 9999 /\ 1 <= m <= 12 /\ 1 <= d <= DaysInMonth y (m - 1).
Proof.
  unfold validCivil. rewrite !andb_true_iff, !Z.leb_le. tauto.
Qed.

Lemma validClock_spec hh mi ss :
  validClock hh mi ss = true -> 0 <= hh <= 23 /\ 0 <= mi <= 59 /\ 0 <= ss <= 59.
Proof.
  unfold validClock. rewrite !andb_true_iff, !Z.leb_le. tauto.
Qed.

(** The date fields of a valid date pass the range checks of the parser. *)
Lemma parse_date_part y m d rest :
  validCivil y m d = true ->
  readDate (civilString y m d ++ rest) = Some (y, m, d, rest) /\
  (m <? 1) || (12 <? m) || (d <? 1) || (DaysInMonth y (m - 1) <? d) = false.
Proof.
  intros Hv. apply validCivil_spec in Hv as (Hy & Hm & Hd).
  pose proof (DaysInMonth_le_31 y (m - 1)) as H31.
  split; [apply readDate_civilString; lia|].
  destruct (Z.ltb_spec m 1); [lia|]. destruct (Z.ltb_spec 12 m); [lia|].
  destruct (Z.ltb_spec d 1); [lia|].
  destruct (Z.ltb_spec (DaysInMonth y (m - 1)) d); [lia|]. reflexivity.
Qed.

Lemma MakeDay_range y m d :
  validCivil y m d = true -> -354285 <= MakeDay y (m - 1) d <= 2932900.
Proof.
  intros Hv. apply validCivil_spec in Hv as (Hy & Hm & Hd).
  pose proof (DaysInMonth_le_31 y (m - 1)) as H31.
  unfold MakeDay. replace ((m - 1) / 12) with 0 by div_lia.
  replace ((m - 1) mod 12) with (m - 1) by div_lia. rewrite Z.add_0_r, leap_flag.
  assert (Hl : DaysInYear y - 365 = 0 \/ DaysInYear y - 365 = 1)
    by (destruct (DaysInYear_cases y); lia).
  assert (Hb : 0 <= daysBeforeMonth (m - 1) (DaysInYear y - 365) <= 335).
  { destruct (month_cases (m - 1)) as [E|[E|[E|[E|[E|[E|[E|[E|[E|[E|[E|E]]]]]]]]]]];
      [lia|..]; rewrite E; cbn [daysBeforeMonth]; lia. }
  unfold DayFromYear. div_lia.
Qed.

(** A time value within a valid day prints as that day. *)
Lemma dateString_civil y m d ms :
  validCivil y m d = true -> 0 <= ms < msPerDay ->
  dateString (MakeDate (MakeDay y (m - 1) d) ms) = civilString y m d.
Proof.
  intros Hv Hms. pose proof (validCivil_spec _ _ _ Hv) as (Hy & Hm & Hd).
  destruct (civil_of_MakeDay y (m - 1) d ms) as (HY & HM & HD); [lia | exact Hd | exact Hms |].
  rewrite dateString_digits by (unfold getUTCFullYear; rewrite HY; exact Hy).
  unfold getUTCFullYear, getUTCMonth, getUTCDate. rewrite HY, HM, HD.
  replace (m - 1 + 1) with m by lia. reflexivity.
Qed.

Lemma TimeClip_civil y m d ms :
  validCivil y m d = true -> 0 <= ms < msPerDay ->
  TimeClip (MakeDate (MakeDay y (m - 1) d) ms)
  = Some (MakeDate (MakeDay y (m - 1) d) ms).
Proof.
  intros Hv Hms. pose proof (MakeDay_range y m d Hv) as Hr.
  unfold TimeClip, MakeDate, msPerDay in *.
  destruct (Z.leb_spec (Z.abs (MakeDay y (m - 1) d * 86400000 + ms)) 8640000000000000);
    [reflexivity | lia].
Qed.

(** X8.  A valid calendar date with a four-digit year, written
    YYYY-MM-DD, is a fixed point of [normalizeDate], on every engine. *)
Theorem normalizeDate_canonical_fixed h y m d :
  validCivil y m d = true ->
  normalizeDate h (civilString y m d) = Ok (civilString y m d).
Proof.
  intros Hv. destruct (parse_date_part y m d [] Hv) as [Hr Hc].
  rewrite app_nil_r in Hr.
  rewrite normalizeDate_dateString. unfold newDate, parseStandard.
  rewrite Hr. cbn [mbind option_bind]. rewrite Hc.
  change (MakeDate (MakeDay y (m - 1) d) 0)
    with (MakeDate (MakeDay y (m - 1) d) 0).
  rewrite (TimeClip_civil y m d 0 Hv) by (unfold msPerDay; lia).
  rewrite (dateString_civil y m d 0 Hv) by (unfold msPerDay; lia). reflexivity.
Qed.

Lemma normalizeDate_canonical_fixed_witness :
  normalizeDate strictHost (civilString 2024 2 29) = Ok (js "2024-02-29").
Proof.
  apply (normalizeDate_canonical_fixed strictHost 2024 2 29). reflexivity.
Defined.

Lemma readTime_clockString hh mi ss rest :
  validClock hh mi ss = true -> expect (cu ".") rest = None ->
  readTime (clockString hh mi ss ++ rest) = Some (MakeTime hh mi ss 0, rest).
Proof.
  intros Hv Hrest. apply validClock_spec in Hv as (Hh & Hm & Hs).
  unfold readTime, clockString.
  rewrite <- app_assoc, (readDigits_pad2 hh 0) by lia. cbn [mbind option_bind].
  cbn [app expect]. change (cu ":") with 58%N. rewrite N.eqb_refl.
  cbn [mbind option_bind].
  rewrite <- app_assoc, (readDigits_pad2 mi 0) by lia. cbn [mbind option_bind].
  replace (100 * 0 + hh) with hh by lia. replace (100 * 0 + mi) with mi by lia.
  destruct (Z.ltb_spec 23 hh); [lia|]. destruct (Z.ltb_spec 59 mi); [lia|].
  cbn [orb app expect]. rewrite N.eqb_refl.
  rewrite (readDigits_pad2 ss 0) by lia. cbn [mbind option_bind].
  replace (100 * 0 + ss) with ss by lia.
  destruct (Z.ltb_spec 59 ss); [lia|]. rewrite Hrest. reflexivity.
Qed.


(** A date-time form with an explicit offset: the time value. *)
Lemma parseStandard_datetime y m d hh mi ss suffix off :
  validCivil y m d = true -> validClock hh mi ss = true ->
  expect (cu ".") suffix = None -> readOffset suffix = Some off ->
  parseStandard (civilString y m d ++ 84%N :: clockString hh mi ss ++ suffix)
  = Some (MakeDate (MakeDay y (m - 1) d) (MakeTime hh mi ss 0) - off).
Proof.
  intros Hv Hc Hdot Hoff. destruct (parse_date_part y m d
    (84%N :: clockString hh mi ss ++ suffix) Hv) as [Hr Hrange].
  unfold parseStandard. rewrite Hr. cbn [mbind option_bind]. rewrite Hrange.
  cbn [expect]. change (cu "T") with 84%N. rewrite N.eqb_refl.
  cbn [mbind option_bind].
  rewrite (readTime_clockString hh mi ss suffix Hc Hdot). cbn [mbind option_bind].
  rewrite Hoff. reflexivity.
Qed.

Lemma normalizeDate_shifted h y m d hh mi ss suffix off y2 m2 d2 :
  validCivil y m d = true -> validClock hh mi ss = true ->
  expect (cu ".") suffix = None -> readOffset suffix = Some off ->
  validCivil y2 m2 d2 = true ->
  MakeDay y2 (m2 - 1) d2
  = MakeDay y (m - 1) d + (MakeTime hh mi ss 0 - off) / msPerDay ->
  normalizeDate h (civilString y m d ++ 84%N :: clockString hh mi ss ++ suffix)
  = Ok (civilString y2 m2 d2).
Proof.
  intros Hv Hc Hdot Hoff Hv2 Hday.
  rewrite normalizeDate_dateString. unfold newDate.
  rewrite (parseStandard_datetime y m d hh mi ss suffix off Hv Hc Hdot Hoff).
  set (r := (MakeTime hh mi ss 0 - off) mod msPerDay).
  assert (Hr : 0 <= r < msPerDay) by (unfold r, msPerDay; div_lia).
  assert (Ht : MakeDate (MakeDay y (m - 1) d) (MakeTime hh mi ss 0) - off
               = MakeDate (MakeDay y2 (m2 - 1) d2) r).
  { rewrite Hday. unfold r, MakeDate, msPerDay. div_lia. }
  rewrite Ht, (TimeClip_civil y2 m2 d2 r Hv2 Hr), (dateString_civil y2 m2 d2 r Hv2 Hr).
  reflexivity.
Qed.

(** X9.  A valid date-time in UTC, YYYY-MM-DDTHH:mm:ssZ, normalizes to its
    date part: the time of day is dropped. *)
Theorem normalizeDate_utc_datetime h y m d hh mi ss :
  validCivil y m d = true -> validClock hh mi ss = true ->
  normalizeDate h (civilString y m d ++ js "T" ++ clockString hh mi ss ++ js "Z")
  = Ok (civilString y m d).
Proof.
  intros Hv Hc. apply (normalizeDate_shifted h y m d hh mi ss (js "Z") 0);
    try assumption; try reflexivity.
  apply validClock_spec in Hc as (Hh & Hm & Hs).
  replace ((MakeTime hh mi ss 0 - 0) / msPerDay) with 0;
    [lia | unfold MakeTime, msPerDay; div_lia].
Qed.

Lemma normalizeDate_utc_datetime_witness :
  normalizeDate strictHost (js "2024-12-31T23:59:59Z") = Ok (js "2024-12-31").
Proof.
  apply (normalizeDate_utc_datetime strictHost 2024 12 31 23 59 59); reflexivity.
Defined.



Lemma year_range t :
  Z.abs t <= 8640000000000000 -> -271821 <= YearFromTime t <= 275760.
Proof.
  intros Ht. pose proof (YearFromTime_bounds t) as Hb.
  assert (Hd : -100000000 <= Day t <= 100000000)
    by (unfold Day, msPerDay; div_lia).
  unfold DayFromYear in Hb. div_lia.
Qed.

(** X11.  Whatever the input, a result of [normalizeDate] is the decimal
    year, between -271821 and 275760, followed by a two-digit month from 01
    to 12 and a two-digit day that exists in that month. *)
Theorem normalizeDate_fields h s r :
  normalizeDate h s = Ok r ->
  exists t,
    newDate h s = Some t /\
    r = numberToString (getUTCFullYear t)
        ++ js "-" ++ pad2 (getUTCMonth t + 1) ++ js "-" ++ pad2 (getUTCDate t) /\
    -271821 <= getUTCFullYear t <= 275760 /\
    1 <= getUTCMonth t + 1 <= 12 /\
    1 <= getUTCDate t <= DaysInMonth (getUTCFullYear t) (getUTCMonth t).
Proof.
  rewrite normalizeDate_dateString.
  destruct (newDate h s) as [t|] eqn:E; [|discriminate]. intros [= <-].
  exists t. split; [reflexivity|].
  destruct (MonthFromTime_DateFromTime t) as (Hm & Hd & _).
  pose proof (DaysInMonth_le_31 (YearFromTime t) (MonthFromTime t)) as H31.
  unfold getUTCFullYear, getUTCMonth, getUTCDate.
  split; [|split; [exact (year_range t (newDate_clipped h s t E))|split; [lia|exact Hd]]].
  unfold dateString, getUTCFullYear, getUTCMonth, getUTCDate, pad2.
  rewrite (pad2_digits (MonthFromTime t + 1)) by lia.
  rewrite (pad2_digits (DateFromTime t)) by lia. reflexivity.
Qed.

Lemma normalizeDate_fields_witness :
  exists t,
    newDate strictHost (js "0099-01-01") = Some t /\
    js "99-01-01" = numberToString (getUTCFullYear t)
        ++ js "-" ++ pad2 (getUTCMonth t + 1) ++ js "-" ++ pad2 (getUTCDate t).
Proof.
  destruct (normalizeDate_fields strictHost (js "0099-01-01") (js "99-01-01"))
    as (t & Ht & Hr & _); [vm_compute; reflexivity|].
  exists t. split; assumption.
Defined.

(** X12.  When the UTC year of the parsed date has four digits, the result
    of [normalizeDate] is in the canonical YYYY-MM-DD form and normalizing it
    again returns it. *)
Theorem normalizeDate_four_digit_years h s t :
  newDate h s = Some t ->
  1000 <= getUTCFullYear t <= 9999 ->
  exists r,
    normalizeDate h s = Ok r /\ isCanonicalDate r = true /\
    normalizeDate h r = Ok r.
Proof.
  intros Hs Hy. exists (dateString t).
  exact (normalizeDate_idem_four_digits h s t Hs Hy).
Qed.

Lemma normalizeDate_four_digit_years_witness :
  exists r,
    normalizeDate strictHost (js "2024-03-01T23:00:00-05:00") = Ok r /\
    isCanonicalDate r = true /\ normalizeDate strictHost r = Ok r.
Proof.
  apply (normalizeDate_four_digit_years strictHost _ 1709352000000);
    [vm_compute; reflexivity | vm_compute; split; discriminate].
Defined.

Lemma normalizeDate_of_fields h s y m d :
  readDate s = Some (y, m, d, []) -> validCivil y m d = true ->
  normalizeDate h s = Ok (civilString y m d).
Proof.
  intros Hr Hv. destruct (parse_date_part y m d [] Hv) as [_ Hc].
  rewrite normalizeDate_dateString. unfold newDate, parseStandard.
  rewrite Hr. cbn [mbind option_bind]. rewrite Hc.
  rewrite (TimeClip_civil y m d 0 Hv) by (unfold msPerDay; lia).
  rewrite (dateString_civil y m d 0 Hv) by (unfold msPerDay; lia). reflexivity.
Qed.

(** X13.  For a year from 1000 to 9999 and a month from 01 to 12, the
    partial forms YYYY-MM and YYYY of the standard format are accepted and
    normalize to the first day of that month and of that year, YYYY-MM-01
    and YYYY-01-01.  (Below year 1000 the result loses the leading zeros
    of the year.) *)
Theorem normalizeDate_partial_dates h y m :
  validCivil y m 1 = true ->
  normalizeDate h (year4 y ++ js "-" ++ pad2 m) = Ok (civilString y m 1) /\
  normalizeDate h (year4 y) = Ok (civilString y 1 1).
Proof.
  intros Hv. pose proof (validCivil_spec _ _ _ Hv) as (Hy & Hm & _).
  split.
  - apply normalizeDate_of_fields; [|exact Hv].
    unfold readDate. rewrite readYear_year4 by lia. cbn [mbind option_bind].
    change (js "-") with [45%N]. cbn [app expect]. change (cu "-") with 45%N.
    rewrite N.eqb_refl. rewrite <- (app_nil_r (pad2 m)), readDigits_pad2 by lia.
    reflexivity.
  - apply normalizeDate_of_fields.
    + unfold readDate. rewrite <- (app_nil_r (year4 y)), readYear_year4 by lia.
      reflexivity.
    + unfold validCivil. cbn [Z.sub Z.leb Z.compare Z.add Z.opp Z.pos_sub andb].
      destruct (Z.leb_spec 1000 y); [|lia]. destruct (Z.leb_spec y 9999); [|lia].
      reflexivity.
Qed.

Lemma normalizeDate_partial_dates_witness :
  normalizeDate strictHost (js "2024-03") = Ok (js "2024-03-01") /\
  normalizeDate strictHost (js "2024") = Ok (js "2024-01-01").
Proof.
  apply (normalizeDate_partial_dates strictHost 2024 3). reflexivity.
Defined.

End DateExtras.

(** ** The Event hook *)

Section EventExtras.
Import EventModel EventSteps Samples EventContent.

(** X14.  In every document the Event hook accepts, the nine text fields
    are not blank, agenda and tags are non-empty lists of trimmed, non-blank
    items, every tag is unchanged by lower-casing, and the time is a
    canonical HH:MM string. *)
Theorem accepted_event_invariants h this stored :
  preSave h this = Ok stored ->
  Forall (fun field => missing field = false)
    [title stored; description stored; overview stored; image stored;
     venue stored; location stored; mode stored; audience stored;
     organizer stored] /\
  (exists a, agenda stored = Some a /\ a <> [] /\
             Forall (fun item => trim item = item /\ item <> []) a) /\
  (exists g, tags stored = Some g /\ g <> [] /\
             Forall (fun tag => trim tag <> [] /\ toLowerCase h tag = tag) g) /\
  isCanonicalTime (time stored) = true.
Proof.
  intros H. destruct (preSave_accepted h this stored H) as (H1 & H2 & H3 & _ & H5).
  repeat split; assumption.
Qed.

Lemma accepted_event_invariants_witness :
  exists stored,
    preSave strictHost reactSummit = Ok stored /\
    isCanonicalTime (time stored) = true.
Proof.
  assert (H : preSave strictHost reactSummit
              = Ok (saved strictHost reactSummit (js "2024-03-01") (js "09:05")))
    by (vm_compute; reflexivity).
  eexists. split; [exact H|].
  apply (accepted_event_invariants strictHost reactSummit _ H).
Defined.

(** X15.  A successful save rewrites agenda and tags item by item, keeping
    their number and order: every agenda item is stored trimmed, every tag
    trimmed and then lower-cased; no item is dropped and duplicates are
    kept. *)
Theorem preSave_rewrites_lists h this stored :
  preSave h this = Ok stored ->
  agenda stored = Some (List.map trim (items (agenda this))) /\
  tags stored
  = Some (List.map (fun tag => toLowerCase h (trim tag)) (items (tags this))).
Proof.
  intros H. apply preSave_Ok_inv in H as (_ & d & t & _ & _ & ->).
  split; reflexivity.
Qed.

Lemma preSave_rewrites_lists_witness :
  exists stored,
    preSave strictHost
      (sampleEvent (js "React Summit 2024") None (js "2024-03-01") (js "09:05")
         [js " b "; js "a"; js "a"] [js "JS"; js " js "] true ∅) = Ok stored /\
    agenda stored = Some [js "b"; js "a"; js "a"] /\
    tags stored = Some [js "js"; js "js"].
Proof.
  assert (H : preSave strictHost
      (sampleEvent (js "React Summit 2024") None (js "2024-03-01") (js "09:05")
         [js " b "; js "a"; js "a"] [js "JS"; js " js "] true ∅)
    = Ok (saved strictHost
      (sampleEvent (js "React Summit 2024") None (js "2024-03-01") (js "09:05")
         [js " b "; js "a"; js "a"] [js "JS"; js " js "] true ∅)
      (js "2024-03-01") (js "09:05")))
    by (vm_compute; reflexivity).
  eexists. split; [exact H|].
  exact (preSave_rewrites_lists _ _ _ H).
Defined.

Lemma hookOrder_sameContent h a b :
  sameContent a b -> hookOrder h a = hookOrder h b.
Proof.
  intros (Hs & Hd & Ht & Ha & Hg). injection Hs as H1 H2 H3 H4 H5 H6 H7 H8 H9.
  unfold hookOrder, presence, temporal.
  rewrite H1, H2, H3, H4, H5, H6, H7, H8, H9, Hd, Ht, Ha, Hg. reflexivity.
Qed.

(** X16.  Whether the Event hook accepts a document, which error it throws
    and what it stores besides the slug do not depend on the slug, on isNew
    or on the modified paths: an update is validated like a creation. *)
Theorem validation_ignores_history h a b :
  sameContent a b ->
  match preSave h a, preSave h b with
  | Ok sa, Ok sb => sameContent sa sb
  | Throw ea, Throw eb => ea = eb
  | _, _ => False
  end.
Proof.
  intros Hab. pose proof (preSave_hookOrder h a) as Pa.
  pose proof (preSave_hookOrder h b) as Pb.
  rewrite (hookOrder_sameContent h a b Hab) in Pa.
  destruct (firstFailure (hookOrder h b)) as [e|].
  - rewrite Pa, Pb. reflexivity.
  - destruct Pa as (da & ta & Hda & Hta & ->).
    destruct Pb as (db & tb & Hdb & Htb & ->).
    destruct Hab as (Hs & Hd & Ht & Ha & Hg).
    rewrite Hd, Hdb in Hda. rewrite Ht, Htb in Hta.
    injection Hda as <-. injection Hta as <-.
    unfold sameContent, saved. cbn [title description overview image venue
      location mode audience organizer date time agenda tags].
    rewrite Ha, Hg. repeat split. exact Hs.
Qed.

Lemma validation_ignores_history_witness :
  preSave strictHost
    (sampleEvent (js "React Summit 2024") (Some (js "old-slug")) (js "2024-03-01")
       (js "9 o'clock") [js "Keynote"] [js "react"] false {["time"]})
  = Throw InvalidTimeFormat.
Proof.
  pose proof (validation_ignores_history strictHost
    (sampleEvent (js "React Summit 2024") (Some (js "old-slug")) (js "2024-03-01")
       (js "9 o'clock") [js "Keynote"] [js "react"] false {["time"]})
    (sampleEvent (js "React Summit 2024") None (js "2024-03-01")
       (js "9 o'clock") [js "Keynote"] [js "react"] true ∅)) as H.
  assert (Hb : preSave strictHost
    (sampleEvent (js "React Summit 2024") None (js "2024-03-01")
       (js "9 o'clock") [js "Keynote"] [js "react"] true ∅)
    = Throw InvalidTimeFormat) by (vm_compute; reflexivity).
  rewrite Hb in H.
  destruct (preSave strictHost
    (sampleEvent (js "React Summit 2024") (Some (js "old-slug")) (js "2024-03-01")
       (js "9 o'clock") [js "Keynote"] [js "react"] false {["time"]})) as [s|e].
  - exfalso. apply H. repeat split.
  - f_equal. apply H. repeat split.
Defined.

Lemma forallb_dropWhile (q p : N -> bool) s :
  forallb q s = true -> forallb q (dropWhile p s) = true.
Proof.
  induction s as [|c t IH]; [reflexivity|]. simpl.
  intros [Hc Ht]%andb_true_iff. destruct (p c); [exact (IH Ht)|].
  simpl. rewrite Hc, Ht. reflexivity.
Qed.

Lemma forallb_trim (q : N -> bool) s :
  forallb q s = true -> forallb q (trim s) = true.
Proof.
  intros H. unfold trim, trimEnd, trimStart.
  rewrite forallb_rev. apply forallb_dropWhile. rewrite forallb_rev.
  apply forallb_dropWhile. exact H.
Qed.

(** Normalizing a tag of Basic Latin characters twice is normalizing it
    once. *)
Lemma tag_normal_form h tag :
  forallb isAscii tag = true ->
  toLowerCase h (trim (toLowerCase h (trim tag))) = toLowerCase h (trim tag).
Proof.
  intros Ha.
  rewrite (toLowerCase_ascii h (trim tag)) at 1 by (apply forallb_trim; exact Ha).
  rewrite (trim_map _ _ isWhiteSpace_asciiLower), trim_idem.
  rewrite <- (toLowerCase_ascii h (trim tag)) by (apply forallb_trim; exact Ha).
  apply toLowerCase_idem.
Qed.

Lemma blankItem_map_trim l : blankItem (List.map trim l) = blankItem l.
Proof.
  induction l as [|x t IH]; [reflexivity|]. simpl. rewrite trim_idem.
  fold (blankItem (List.map trim t)). fold (blankItem t). rewrite IH. reflexivity.
Qed.

Lemma blankItem_Forall (P : jsstring -> Prop) l :
  Forall (fun x => trim x <> [] /\ P x) l -> blankItem l = false.
Proof.
  induction 1 as [|x t [Hx _] _ IH]; [reflexivity|]. simpl.
  fold (blankItem t). rewrite IH. destruct (trim x); [congruence | reflexivity].
Qed.

Lemma noItems_map (f : jsstring -> jsstring) (a : option (list jsstring)) :
  noItems a = false -> noItems (Some (List.map f (items a))) = false.
Proof. destruct a as [[|x l]|]; simpl; congruence. Qed.

(** X17.  The Event hook is idempotent on what it accepts: when the UTC
    year of the date has four digits and the tags are Basic Latin, running
    the hook on the stored document succeeds and changes nothing. *)
Theorem preSave_idempotent h this stored t :
  preSave h this = Ok stored ->
  newDate h (date this) = Some t ->
  (1000 <= getUTCFullYear t <= 9999)%Z ->
  forallb (forallb isAscii) (items (tags this)) = true ->
  preSave h stored = Ok stored.
Proof.
  intros H Ht Hy Hascii.
  apply preSave_Ok_inv in H as (Hff & d & tm & Hd & Htm & ->).
  destruct (normalizeDate_idem_four_digits h _ t Ht Hy) as (Hd1 & _ & Hd2).
  rewrite Hd in Hd1. injection Hd1 as ->.
  pose proof (normalizeTime_idem _ _ Htm) as Htm2.
  pose proof (hookOrder_None h this Hff) as (Hp & Ha & Hg & Hab & Hgb).
  pose proof (preSave_hookOrder h (saved h this (dateString t) tm)) as P.
  assert (Hff2 : firstFailure (hookOrder h (saved h this (dateString t) tm)) = None).
  { unfold hookOrder, presence, temporal, saved in *.
    cbn [title description overview image venue location mode audience
         organizer date time agenda tags items] in *.
    rewrite Hd2, Htm2. cbn [throws].
    rewrite (noItems_map trim _ Ha), (noItems_map _ _ Hg).
    rewrite blankItem_map_trim, Hab.
    rewrite (blankItem_Forall _ _ (Forall_map_tag h _ Hgb)).
    cbn [app firstFailure] in Hff |- *.
    repeat match type of Hff with
    | (if ?b then _ else _) = None => destruct b; [discriminate|]
    end. reflexivity. }
  rewrite Hff2 in P. destruct P as (d' & tm' & Hd' & Htm' & ->).
  cbn [date time saved] in Hd', Htm'. rewrite Hd2 in Hd'. rewrite Htm2 in Htm'.
  injection Hd' as <-. injection Htm' as <-.
  f_equal. unfold saved.
  cbn [title description overview image venue location mode audience
       organizer date time agenda tags items isNew modifiedPaths slug isModified].
  f_equal.
  - unfold isModified. cbn [modifiedPaths isNew].
    destruct (EventModel.isNew this || bool_decide ("title" ∈ EventModel.modifiedPaths this));
      reflexivity.
  - f_equal. rewrite List.map_map. apply List.map_ext. intros x. apply trim_idem.
  - f_equal. rewrite List.map_map. apply List.map_ext_in. intros x Hx.
    apply tag_normal_form. rewrite forallb_forall in Hascii. exact (Hascii x Hx).
Qed.

Lemma preSave_idempotent_witness :
  exists stored,
    preSave strictHost
      (sampleEvent (js " React Summit ") None (js "2024-03-01T23:00:00-05:00")
         (js "09:05:30") [js " Keynote "] [js " React "; js "JS"] true ∅)
    = Ok stored /\
    preSave strictHost stored = Ok stored.
Proof.
  assert (H : preSave strictHost
      (sampleEvent (js " React Summit ") None (js "2024-03-01T23:00:00-05:00")
         (js "09:05:30") [js " Keynote "] [js " React "; js "JS"] true ∅)
    = Ok (saved strictHost
      (sampleEvent (js " React Summit ") None (js "2024-03-01T23:00:00-05:00")
         (js "09:05:30") [js " Keynote "] [js " React "; js "JS"] true ∅)
      (js "2024-03-02") (js "09:05")))
    by (vm_compute; reflexivity).
  eexists. split; [exact H|].
  apply (preSave_idempotent strictHost _ _ 1709352000000%Z H);
    [vm_compute; reflexivity | vm_compute; split; discriminate | reflexivity].
Defined.

End EventExtras.

(** ** The Booking hook *)

Section BookingExtras.
Import BookingModel.

Lemma isValidEmail_not_missing field :
  isValidEmail (text field) = true -> missing field = false.
Proof.
  destruct field as [s|]; [|discriminate]. unfold isValidEmail, missing. simpl text.
  destruct (trim s); [discriminate | reflexivity].
Qed.

Ltac booking_cases :=
  unfold is_Some; intuition (try discriminate; try congruence; eauto).

(** X18.  The outcome of the Booking hook, case by case: it never changes
    the booking; it accepts exactly when the e-mail passes the format check
    and, for a new booking or a modified eventId, the event exists (the
    presence check changes only the message); the three errors are thrown
    exactly for a blank e-mail, a non-blank malformed e-mail, and a missing
    event that had to be looked up. *)
Theorem booking_outcome events this :
  (forall out, snd (preSave events this) = Ok out -> out = this) /\
  (snd (preSave events this) = Ok this <->
   isValidEmail (text (email this)) = true /\
   (isNew this || isModified this "eventId" = true ->
    is_Some (events !! eventId this))) /\
  (snd (preSave events this) = Throw EmailRequired <->
   missing (email this) = true) /\
  (snd (preSave events this) = Throw InvalidEmailFormat <->
   missing (email this) = false /\ isValidEmail (text (email this)) = false) /\
  (snd (preSave events this) = Throw EventNotFound <->
   isValidEmail (text (email this)) = true /\
   isNew this || isModified this "eventId" = true /\
   events !! eventId this = None).
Proof.
  unfold preSave.
  destruct (missing (email this)) eqn:Em; cbn [negb snd].
  { assert (Hv : isValidEmail (text (email this)) = false).
    { destruct (isValidEmail (text (email this))) eqn:Ev; [|reflexivity].
      apply isValidEmail_not_missing in Ev. congruence. }
    rewrite Hv. booking_cases. }
  destruct (isValidEmail (text (email this))) eqn:Ev; cbn [negb snd];
    [|booking_cases].
  destruct (isNew this || isModified this "eventId") eqn:En; cbn [snd];
    [|booking_cases].
  destruct (events !! eventId this) as [ev|] eqn:El; [booking_cases|].
  split; [discriminate|]. split; [|booking_cases].
  split; [discriminate|]. intros [_ F]. destruct (F eq_refl) as [x Hx]. discriminate.
Qed.

Lemma booking_outcome_witness :
  snd (preSave Samples.oneEvent
         (Samples.newBooking (Some (js "user@example.com"))))
  = Ok (Samples.newBooking (Some (js "user@example.com"))).
Proof.
  apply (booking_outcome Samples.oneEvent
           (Samples.newBooking (Some (js "user@example.com")))).
  split; [reflexivity|]. intros _. eexists. reflexivity.
Defined.

(** X19.  Every string whose trimmed form is local [@] domain [.] rest,
    with three non-empty parts free of white space and [@], passes the e-mail
    check; dots are not restricted in any of the parts. *)
Theorem email_shape_accepted email loc dom tld :
  trim email = loc ++ 64 :: dom ++ 46 :: tld ->
  loc <> [] -> dom <> [] -> tld <> [] ->
  forallb plain loc = true -> forallb plain dom = true ->
  forallb plain tld = true ->
  isValidEmail email = true.
Proof. apply isValidEmail_accepts. Qed.

Lemma email_shape_accepted_witness :
  isValidEmail (js " first.last@mail.example.com ") = true.
Proof.
  apply (email_shape_accepted _ (js "first.last") (js "mail.example") (js "com"));
    (reflexivity || discriminate).
Defined.

End BookingExtras.
